(** * Browser utilities of the digital-twin safe: encoding helpers,
      [fileToDataUrl], [downloadFile] and [injectViewerIFrame]

    Shallow embedding of the utility functions that follow the sidebar
    component in [src/components/AppLayout/Sidebar/index.tsx].

    - JavaScript text is a [string], held as the bytes of its UTF-8 form;
      the only text tests of the source are the search for the ASCII text
      [data:] and the lower-casing of a host name, both of which act on
      single characters.
    - A [Uint8Array] is a [list byte].
    - A thrown exception is a value of [exn]; a computation that touches the
      page is a function from the page to an outcome and the page it leaves
      behind (what was changed before a [throw] stays changed).
    - The page is a tree of elements with node identities, as the DOM has
      them; the platform services the source calls but does not define (the
      URL parser, the codec package, [FileReader]) are an interface or a
      model that says so. *)

From Stdlib Require Import String Ascii.
From Stdlib Require Import List Bool Arith Lia Permutation.
From Stdlib Require Import Init.Byte.
Import ListNotations.
Local Open Scope string_scope.
Local Open Scope list_scope.
Local Open Scope nat_scope.

(** ** Exceptions and outcomes *)

(** The exceptions that can reach a caller of these functions.  The source
    itself only throws [new Error(msg)]; the other three are what the
    platform and the codec package throw. *)
Inductive exn : Type :=
| Error (msg : string)
| TypeError (msg : string)
| SyntaxError (msg : string)
| DOMException (name : string).

(** Outcome of a synchronous call. *)
Inductive outcome (A : Type) : Type :=
| Return (a : A)
| Throw (e : exn).
Arguments Return {A} a.
Arguments Throw {A} e.

(** State of a promise once the event loop has run the work it waits for. *)
Inductive promise (A : Type) : Type :=
| Pending
| Resolved (a : A)
| Rejected (e : exn).
Arguments Pending {A}.
Arguments Resolved {A} a.
Arguments Rejected {A} e.

(** ** The codec package *)

Module Multibase.

(** Modelled from the spec: the package [uint8arrays] (functions [toString]
    and [fromString]) is imported by the source but is not part of it.  The
    spec calls it a multibase-compatible codec with a fixed registry of named
    schemes such as [base64] and [base64urlpad], and the source's doc comment
    points at the multibase table for the list.  This module gives the
    RFC 4648 family of that table: a scheme is an alphabet of [2^k]
    characters, the number [k] of bits a character carries, and whether the
    text is padded with [=] to a whole number of bytes.  It also gives
    [utf8], the encoding the package uses when none is named.  The package
    knows further names (among them [hex], [ascii], [base10], [base36] and
    [base58btc]); they are left out here, and no property below is about
    them. *)

Record Base : Type := mkBase {
  alphabet : list ascii;
  bitsPerChar : nat;
  padding : bool
}.

(** Bits of a byte, most significant first. *)
Definition bits_of_byte (b : byte) : list bool :=
  let '(b0, (b1, (b2, (b3, (b4, (b5, (b6, b7))))))) := Byte.to_bits b in
  [b7; b6; b5; b4; b3; b2; b1; b0].

Definition byte_of_bits (l : list bool) : byte :=
  Byte.of_bits
    (nth 7 l false, (nth 6 l false, (nth 5 l false, (nth 4 l false,
    (nth 3 l false, (nth 2 l false, (nth 1 l false, nth 0 l false))))))).

Definition bits_of_bytes (data : list byte) : list bool :=
  flat_map bits_of_byte data.

(** Number denoted by a group of bits, most significant first. *)
Definition val_of_bits (l : list bool) : nat :=
  fold_left (fun acc (b : bool) => 2 * acc + (if b then 1 else 0)) l 0.

(** The [k] low bits of [v], most significant first. *)
Fixpoint bits_of_val (k v : nat) : list bool :=
  match k with
  | 0 => []
  | S k' => bits_of_val k' (v / 2) ++ [Nat.odd v]
  end.

(** The first [n] groups of [k] bits of [l]. *)
Fixpoint chunks (n k : nat) (l : list bool) : list (list bool) :=
  match n with
  | 0 => []
  | S n' => firstn k l :: chunks n' k (skipn k l)
  end.

Definition bytes_of_bits (n : nat) (l : list bool) : list byte :=
  map byte_of_bits (chunks n 8 l).

Definition pad_char : ascii := "="%char.

Definition char_of_val (al : list ascii) (v : nat) : ascii :=
  nth v al pad_char.

Fixpoint index_of (c : ascii) (al : list ascii) : option nat :=
  match al with
  | [] => None
  | a :: al' =>
      if Ascii.eqb a c then Some 0
      else match index_of c al' with
           | Some i => Some (S i)
           | None => None
           end
  end.

(** Padding characters that bring [len] characters of [k] bits to a byte
    boundary; the loop adds one character at a time and stops within eight
    rounds, since eight characters always hold a whole number of bytes. *)
Fixpoint pad_count (fuel len k : nat) : nat :=
  match fuel with
  | 0 => 0
  | S fuel' =>
      if (len * k) mod 8 =? 0 then 0 else S (pad_count fuel' (S len) k)
  end.

Definition encode (b : Base) (data : list byte) : list ascii :=
  let k := bitsPerChar b in
  let bits := bits_of_bytes data in
  let n := (length bits + k - 1) / k in
  let filled := bits ++ repeat false (n * k - length bits) in
  let body := map (fun c => char_of_val (alphabet b) (val_of_bits c))
                  (chunks n k filled) in
  if padding b then body ++ repeat pad_char (pad_count 8 n k) else body.

(** Drop every trailing [=]. *)
Fixpoint strip_padding (s : list ascii) : list ascii :=
  match s with
  | [] => []
  | c :: s' =>
      match strip_padding s' with
      | [] => if Ascii.eqb c pad_char then [] else [c]
      | r => c :: r
      end
  end.

Fixpoint values_of (al : list ascii) (s : list ascii) : option (list nat) :=
  match s with
  | [] => Some []
  | c :: s' =>
      match index_of c al, values_of al s' with
      | Some v, Some vs => Some (v :: vs)
      | _, _ => None
      end
  end.

(** Why a text is refused. *)
Inductive decode_error : Type :=
| NonAlphabetCharacter
| UnexpectedEndOfData.

Definition decode (b : Base) (s : list ascii) : decode_error + list byte :=
  let k := bitsPerChar b in
  match values_of (alphabet b) (strip_padding s) with
  | None => inl NonAlphabetCharacter
  | Some vs =>
      let bits := flat_map (bits_of_val k) vs in
      let n := length bits / 8 in
      let rest := skipn (8 * n) bits in
      if (length rest <? k) && forallb negb rest
      then inr (bytes_of_bits n (firstn (8 * n) bits))
      else inl UnexpectedEndOfData
  end.

Definition chars (s : string) : list ascii := list_ascii_of_string s.

Definition upper (c : ascii) : ascii :=
  let n := nat_of_ascii c in
  if (97 <=? n) && (n <=? 122) then ascii_of_nat (n - 32) else c.

Definition base2_alphabet := chars "01".
Definition base8_alphabet := chars "01234567".
Definition base16_alphabet := chars "0123456789abcdef".
Definition base32_alphabet := chars "abcdefghijklmnopqrstuvwxyz234567".
Definition base32hex_alphabet := chars "0123456789abcdefghijklmnopqrstuv".
Definition base32z_alphabet := chars "ybndrfg8ejkmcpqxot1uwisza345h769".
Definition base64_alphabet :=
  chars "ABCDEFGHIJKLMNOPQRSTUVWXYZabcdefghijklmnopqrstuvwxyz0123456789+/".
Definition base64url_alphabet :=
  chars "ABCDEFGHIJKLMNOPQRSTUVWXYZabcdefghijklmnopqrstuvwxyz0123456789-_".

(** The registry: scheme names of the multibase table and their
    parameters. *)
Definition registry : list (string * Base) :=
  [ ("base2", mkBase base2_alphabet 1 false);
    ("base8", mkBase base8_alphabet 3 false);
    ("base16", mkBase base16_alphabet 4 false);
    ("base16upper", mkBase (map upper base16_alphabet) 4 false);
    ("base32", mkBase base32_alphabet 5 false);
    ("base32upper", mkBase (map upper base32_alphabet) 5 false);
    ("base32pad", mkBase base32_alphabet 5 true);
    ("base32padupper", mkBase (map upper base32_alphabet) 5 true);
    ("base32hex", mkBase base32hex_alphabet 5 false);
    ("base32hexupper", mkBase (map upper base32hex_alphabet) 5 false);
    ("base32hexpad", mkBase base32hex_alphabet 5 true);
    ("base32hexpadupper", mkBase (map upper base32hex_alphabet) 5 true);
    ("base32z", mkBase base32z_alphabet 5 false);
    ("base64", mkBase base64_alphabet 6 false);
    ("base64pad", mkBase base64_alphabet 6 true);
    ("base64url", mkBase base64url_alphabet 6 false);
    ("base64urlpad", mkBase base64url_alphabet 6 true) ].

Fixpoint lookup (name : string) (r : list (string * Base)) : option Base :=
  match r with
  | [] => None
  | (n, b) :: r' => if String.eqb n name then Some b else lookup name r'
  end.

(** The name is one of the registry. *)
Definition rfc4648 (encoding : string) : bool :=
  match lookup encoding registry with
  | Some _ => true
  | None => false
  end.

(** *** The text encoding [utf8] *)

Definition code (b : byte) : nat := nat_of_ascii (ascii_of_byte b).

(** The bytes of U+FFFD, which stands for what could not be decoded. *)
Definition replacement : list byte := [xef; xbf; xbd].

(** State of the UTF-8 decoder: how many bytes the sequence being read
    still needs, the range the next of them must lie in, and the bytes of
    the sequence read so far. *)
Record utf8_state : Type := mk_utf8_state {
  needed : nat;
  lower_bound : nat;
  upper_bound : nat;
  pending : list byte
}.

Definition utf8_start : utf8_state := mk_utf8_state 0 128 191 [].

(** A byte met between two sequences: an ASCII byte is a character, a lead
    byte opens a sequence of two, three or four bytes, and any other byte
    is an error.  The result is what is put out and the next state. *)
Definition utf8_lead (b : byte) : list byte * utf8_state :=
  let n := code b in
  if n <=? 127 then ([b], utf8_start)
  else if (194 <=? n) && (n <=? 223)
  then ([], mk_utf8_state 1 128 191 [b])
  else if (224 <=? n) && (n <=? 239)
  then ([], mk_utf8_state 2 (if n =? 224 then 160 else 128)
                            (if n =? 237 then 159 else 191) [b])
  else if (240 <=? n) && (n <=? 244)
  then ([], mk_utf8_state 3 (if n =? 240 then 144 else 128)
                            (if n =? 244 then 143 else 191) [b])
  else (replacement, utf8_start).

(** Decoding bytes to text, as the decoder of the Encoding standard does:
    a well-formed sequence is the character it encodes, so its bytes are the
    bytes of the text; a sequence that breaks off gives U+FFFD, and the
    byte that broke it is read again as the start of something new.  A byte
    order mark at the start is kept, as it is where the package decodes
    through [Buffer]; a [TextDecoder] would drop it. *)
Fixpoint utf8_decode (st : utf8_state) (input : list byte) : list byte :=
  match input with
  | [] =>
      match needed st with
      | 0 => []
      | S _ => replacement
      end
  | b :: rest =>
      match needed st with
      | 0 => let (out, st') := utf8_lead b in out ++ utf8_decode st' rest
      | S k =>
          if (lower_bound st <=? code b) && (code b <=? upper_bound st)
          then
            match k with
            | 0 => pending st ++ [b] ++ utf8_decode utf8_start rest
            | S _ =>
                utf8_decode (mk_utf8_state k 128 191 (pending st ++ [b])) rest
            end
          else
            let (out, st') := utf8_lead b in
            replacement ++ out ++ utf8_decode st' rest
      end
  end.

Definition text_of_bytes (l : list byte) : string :=
  string_of_list_ascii (map ascii_of_byte l).

Definition bytes_of_text (s : string) : list byte :=
  map byte_of_ascii (list_ascii_of_string s).

Definition is_utf8 (encoding : string) : bool :=
  String.eqb encoding "utf8" || String.eqb encoding "utf-8".

(** Modelled from the spec: [toString(array, encoding)] of the package
    [uint8arrays], which is not part of the source: the text of [array] in
    the named scheme of the registry, or the text that [array] decodes to
    as UTF-8.  A name that this module does not know is refused. *)
Definition toString (array : list byte) (encoding : string) : outcome string :=
  match lookup encoding registry with
  | Some b => Return (string_of_list_ascii (encode b array))
  | None =>
      if is_utf8 encoding
      then Return (text_of_bytes (utf8_decode utf8_start array))
      else Throw (Error ("Unsupported encoding " ++ encoding)%string)
  end.

(** Modelled from the spec: [fromString(string, encoding)] of the package
    [uint8arrays], which is not part of the source: the bytes that [string]
    stands for in the named scheme of the registry, with an error for a text
    that is not valid in the scheme, or the UTF-8 bytes of [string].  A name
    that this module does not know is refused. *)
Definition fromString (str : string) (encoding : string)
  : outcome (list byte) :=
  match lookup encoding registry with
  | None =>
      if is_utf8 encoding
      then Return (bytes_of_text str)
      else Throw (Error ("Unsupported encoding " ++ encoding)%string)
  | Some b =>
      match decode b (list_ascii_of_string str) with
      | inr data => Return data
      | inl NonAlphabetCharacter =>
          Throw (SyntaxError ("Non-" ++ encoding ++ " character")%string)
      | inl UnexpectedEndOfData =>
          Throw (SyntaxError "Unexpected end of data")
      end
  end.

(** Executable check that a scheme is well formed: between one and eight
    bits per character, [2^k] distinct characters, none of them [=]. *)
Fixpoint distinct (l : list ascii) : bool :=
  match l with
  | [] => true
  | a :: l' => negb (existsb (Ascii.eqb a) l') && distinct l'
  end.

Definition base_ok (b : Base) : bool :=
  (1 <=? bitsPerChar b) && (bitsPerChar b <=? 8)
  && (length (alphabet b) =? 2 ^ bitsPerChar b)
  && distinct (alphabet b)
  && negb (existsb (Ascii.eqb pad_char) (alphabet b)).

End Multibase.

(** ** Text *)

(** [hay.includes(needle)]: [needle] occurs somewhere in [hay]. *)
Fixpoint includes (needle hay : string) : bool :=
  String.prefix needle hay
  || match hay with
     | EmptyString => false
     | String _ hay' => includes needle hay'
     end.

Definition lower (c : ascii) : ascii :=
  let n := nat_of_ascii c in
  if (65 <=? n) && (n <=? 90) then ascii_of_nat (n + 32) else c.

(** [s.toLowerCase()].  It is applied to host names only, which a URL record
    and [window.location] hold in ASCII. *)
Fixpoint toLowerCase (s : string) : string :=
  match s with
  | EmptyString => EmptyString
  | String c s' => String (lower c) (toLowerCase s')
  end.

(** ** The page *)

Module Dom.

#[local] Unset Elimination Schemes.

(** An element: its identity, its name, its content attributes, its inline
    style declarations and its children in document order. *)
Inductive Node : Type := mkNode {
  nid : nat;
  localName : string;
  attributes : list (string * string);
  style : list (string * string);
  childNodes : list Node
}.
#[local] Set Elimination Schemes.

(** Induction on a tree of elements: the children may be assumed to have
    the property. *)
Fixpoint Node_tree_ind (P : Node -> Prop)
    (step : forall i name attrs sty cs,
        Forall P cs -> P (mkNode i name attrs sty cs))
    (n : Node) : P n :=
  match n with
  | mkNode i name attrs sty cs =>
      step i name attrs sty cs
        ((fix children (l : list Node) : Forall P l :=
            match l with
            | [] => Forall_nil P
            | c :: l' =>
                Forall_cons c (Node_tree_ind P step c) (children l')
            end) cs)
  end.

(** The node and its descendants, in tree order. *)
Fixpoint nodes (n : Node) : list Node :=
  n :: flat_map nodes (childNodes n).

Definition nids (n : Node) : list nat := map nid (nodes n).

Fixpoint assoc (k : string) (l : list (string * string)) : option string :=
  match l with
  | [] => None
  | (k', v) :: l' => if String.eqb k' k then Some v else assoc k l'
  end.

(** Set the value of key [k], in place when the key is there already. *)
Fixpoint assoc_set (k v : string) (l : list (string * string))
  : list (string * string) :=
  match l with
  | [] => [(k, v)]
  | (k', v') :: l' =>
      if String.eqb k' k then (k, v) :: l' else (k', v') :: assoc_set k v l'
  end.

Definition getAttribute (name : string) (e : Node) : option string :=
  assoc name (attributes e).

Definition setAttribute (name value : string) (e : Node) : Node :=
  mkNode (nid e) (localName e) (assoc_set name value (attributes e))
         (style e) (childNodes e).

Definition setStyle (property value : string) (e : Node) : Node :=
  mkNode (nid e) (localName e) (attributes e)
         (assoc_set property value (style e)) (childNodes e).

(** The properties the source assigns; each one reflects the content
    attribute named here. *)
Definition set_src := setAttribute "src".
Definition set_title := setAttribute "title".
Definition set_sandbox := setAttribute "sandbox".
Definition set_loading := setAttribute "loading".
Definition set_allow := setAttribute "allow".
Definition set_className := setAttribute "class".

Definition attribute_or_empty (name : string) (e : Node) : string :=
  match getAttribute name e with
  | Some v => v
  | None => ""
  end.

Definition get_src := attribute_or_empty "src".
Definition get_title := attribute_or_empty "title".
Definition get_sandbox := attribute_or_empty "sandbox".
Definition get_loading := attribute_or_empty "loading".
Definition get_allow := attribute_or_empty "allow".
Definition get_className := attribute_or_empty "class".

(** An element has the ID [id] when its [id] attribute is [id] and is not
    empty. *)
Definition has_id (id : string) (e : Node) : bool :=
  match getAttribute "id" e with
  | Some v => String.eqb v id && negb (String.eqb v "")
  | None => false
  end.

(** One more child at the end of the children of the node called [parent];
    [child] is a node that is not in the tree yet. *)
Fixpoint appendChildTo (parent : nat) (child : Node) (n : Node) : Node :=
  let cs := map (appendChildTo parent child) (childNodes n) in
  mkNode (nid n) (localName n) (attributes n) (style n)
         (if nid n =? parent then cs ++ [child] else cs).

(** The node called [child] leaves the children of the node called
    [parent]. *)
Fixpoint removeChildFrom (parent child : nat) (n : Node) : Node :=
  let cs := map (removeChildFrom parent child) (childNodes n) in
  mkNode (nid n) (localName n) (attributes n) (style n)
         (if nid n =? parent
          then filter (fun c => negb (nid c =? child)) cs
          else cs).

(** The element [d] with [c] as one more child at the end. *)
Definition with_child (c d : Node) : Node :=
  mkNode (nid d) (localName d) (attributes d) (style d)
         (childNodes d ++ [c]).

Definition find_node (i : nat) (n : Node) : option Node :=
  find (fun x => nid x =? i) (nodes n).

(** A click that the page received: the element as it was then, and
    whether it was in the document. *)
Record Click : Type := mkClick {
  click_target : Node;
  click_connected : bool
}.

(** The page: the document element, the identity the next created node
    gets, the host of [window.location], and the clicks so far. *)
Record Page : Type := mkPage {
  root : Node;
  next_nid : nat;
  location_host : string;
  clicks : list Click
}.

Definition set_root (r : Node) (p : Page) : Page :=
  mkPage r (next_nid p) (location_host p) (clicks p).

(** Node identities are distinct and were all handed out already. *)
Definition wf (p : Page) : Prop :=
  NoDup (nids (root p)) /\ Forall (fun i => i < next_nid p) (nids (root p)).

(** A computation on the page. *)
Definition dom (A : Type) : Type := Page -> outcome A * Page.

Definition ret {A} (a : A) : dom A := fun p => (Return a, p).

Definition throw {A} (e : exn) : dom A := fun p => (Throw e, p).

Definition bind {A B} (m : dom A) (k : A -> dom B) : dom B :=
  fun p =>
    match m p with
    | (Return a, p') => k a p'
    | (Throw e, p') => (Throw e, p')
    end.

Definition lift {A} (o : outcome A) : dom A := fun p => (o, p).

Definition get_location_host : dom string :=
  fun p => (Return (location_host p), p).

(** [document.createElement(name)]: a new element outside the document. *)
Definition createElement (name : string) : dom Node :=
  fun p =>
    (Return (mkNode (next_nid p) name [] [] []),
     mkPage (root p) (S (next_nid p)) (location_host p) (clicks p)).

(** [document.getElementById(id)]: the first element in tree order with that
    ID, or [null]. *)
Definition getElementById (id : string) : dom (option Node) :=
  fun p => (Return (find (has_id id) (nodes (root p))), p).

Definition is_body (e : Node) : bool :=
  String.eqb (localName e) "body" || String.eqb (localName e) "frameset".

(** The body element of a document whose document element is [r]: the
    first [body] or [frameset] child of an [html] element. *)
Definition body_of (r : Node) : option Node :=
  if String.eqb (localName r) "html"
  then find is_body (childNodes r)
  else None.

(** [document.body]: the body element, or [null]. *)
Definition document_body : dom (option Node) :=
  fun p => (Return (body_of (root p)), p).

(** [parent.appendChild(child)] on a value that may be [null]. *)
Definition appendChild (parent : option Node) (child : Node) : dom unit :=
  match parent with
  | None => throw (TypeError "Cannot read properties of null")
  | Some pa =>
      fun p => (Return tt, set_root (appendChildTo (nid pa) child (root p)) p)
  end.

(** Some node called [parent] has a child called [child]. *)
Definition has_child (parent child : nat) (n : Node) : bool :=
  existsb (fun x => (nid x =? parent)
                    && existsb (fun c => nid c =? child) (childNodes x))
          (nodes n).

(** [parent.removeChild(child)]: [NotFoundError] unless [child] is a child
    of [parent]. *)
Definition removeChild (parent : option Node) (child : Node) : dom unit :=
  match parent with
  | None => throw (TypeError "Cannot read properties of null")
  | Some pa =>
      fun p =>
        if has_child (nid pa) (nid child) (root p)
        then (Return tt,
              set_root (removeChildFrom (nid pa) (nid child) (root p)) p)
        else (Throw (DOMException "NotFoundError"), p)
  end.

Definition isConnected (e : Node) (p : Page) : bool :=
  existsb (fun n => nid n =? nid e) (nodes (root p)).

(** [element.click()]. *)
Definition click (e : Node) : dom unit :=
  fun p =>
    (Return tt,
     mkPage (root p) (next_nid p) (location_host p)
            (clicks p ++ [mkClick e (isConnected e p)])).

End Dom.

Import Dom.

Notation "x <- m ;; k" := (bind m (fun x => k))
  (at level 61, m at next level, right associativity).
Notation "m ;;; k" := (bind m (fun _ => k))
  (at level 61, right associativity).

(** ** The URL parser *)

(** [new URL(text)] is the platform's; the source only reads [host] from
    the record and lets the [TypeError] of a text that does not parse
    escape. *)
Record URL : Type := mkURL { host : string }.

Class UrlParser : Type := { new_URL : string -> outcome URL }.

(** ** Blobs, files and the file reader *)

(** A blob: its bytes, its type, and whether the platform manages to read
    it (a blob backed by a file can stop being readable). *)
Record Blob : Type := mkBlob {
  blob_bytes : list byte;
  blob_type : string;
  blob_readable : bool
}.

Record File : Type := mkFile {
  file_name : string;
  file_blob : Blob
}.

(** [new Blob([bytes])]: in memory, with the default empty type. *)
Definition new_Blob (parts : list (list byte)) : Blob :=
  mkBlob (List.concat parts) "" true.

(** [blob.arrayBuffer()]. *)
Definition arrayBuffer (b : Blob) : promise (list byte) :=
  if blob_readable b then Resolved (blob_bytes b)
  else Rejected (DOMException "NotReadableError").

(** [await p] followed by the rest of an async function. *)
Definition await {A B} (p : promise A) (k : A -> promise B) : promise B :=
  match p with
  | Pending => Pending
  | Resolved a => k a
  | Rejected e => Rejected e
  end.

(** What an async function body that ends in [o] settles its promise to. *)
Definition settle {A} (o : outcome A) : promise A :=
  match o with
  | Return a => Resolved a
  | Throw e => Rejected e
  end.

(** The [result] of a reader: [null] or a text. *)
Inductive js_value : Type :=
| JNull
| JString (s : string).

(** A job of the event loop acting on a state [S]. *)
Definition job (S : Type) : Type := S -> S.

Record ReaderData : Type := mkReaderData {
  result : js_value;
  error : option exn
}.

Record FileReader (S : Type) : Type := mkFileReader {
  onload : option (ReaderData -> job S);
  onerror : option (ReaderData -> job S);
  onloadend : option (ReaderData -> job S)
}.
Arguments mkFileReader {S}.
Arguments onload {S}.
Arguments onerror {S}.
Arguments onloadend {S}.

Definition new_FileReader {S} : FileReader S := mkFileReader None None None.

Definition set_onloadend {S} (h : ReaderData -> job S) (r : FileReader S)
  : FileReader S :=
  mkFileReader (onload r) (onerror r) (Some h).

Inductive reader_event : Type := LoadEvent | ErrorEvent | LoadEndEvent.

Definition handler {S} (r : FileReader S) (ev : reader_event)
  : option (ReaderData -> job S) :=
  match ev with
  | LoadEvent => onload r
  | ErrorEvent => onerror r
  | LoadEndEvent => onloadend r
  end.

(** [FileReader.readAsDataURL] is the platform's; this is its behaviour in
    the File API.  A read that succeeds leaves the data URL in [result] and fires [load]
    then [loadend]; a read that fails leaves [null] in [result], sets
    [error], and fires [error] then [loadend].  The jobs returned are the
    calls of the handlers the reader has, in that order. *)
Definition data_url_of (b : Blob) : string :=
  ("data:"
   ++ (if String.eqb (blob_type b) "" then "application/octet-stream"
       else blob_type b)
   ++ ";base64,"
   ++ string_of_list_ascii
        (Multibase.encode
           (Multibase.mkBase Multibase.base64_alphabet 6 true)
           (blob_bytes b)))%string.

Definition read_data (b : Blob) : ReaderData :=
  if blob_readable b then mkReaderData (JString (data_url_of b)) None
  else mkReaderData JNull (Some (DOMException "NotReadableError")).

Definition readAsDataURL {S} (r : FileReader S) (f : File) : list (job S) :=
  let d := read_data (file_blob f) in
  let events := if blob_readable (file_blob f)
                then [LoadEvent; LoadEndEvent]
                else [ErrorEvent; LoadEndEvent] in
  flat_map (fun ev => match handler r ev with
                      | Some h => [h d]
                      | None => []
                      end) events.

(** The two functions a promise executor receives; a settled promise stays
    as it is. *)
Definition resolve {A} (a : A) : job (promise A) :=
  fun p => match p with Pending => Resolved a | _ => p end.

Definition reject {A} (e : exn) : job (promise A) :=
  fun p => match p with Pending => Rejected e | _ => p end.

(** [new Promise(executor)], once the jobs the executor has set up have
    run. *)
Definition new_Promise {A}
  (executor : (A -> job (promise A)) -> (exn -> job (promise A))
              -> list (job (promise A))) : promise A :=
  fold_left (fun p (j : job (promise A)) => j p) (executor resolve reject)
            Pending.

(** ** The functions of the source *)

Definition uint8arrayToString (uint8array : list byte) (encoding : string)
  : outcome string :=
  Multibase.toString uint8array encoding.

Definition uint8arrayFromString (str : string) (encoding : string)
  : outcome (list byte) :=
  Multibase.fromString str encoding.

Definition blobToBase64String (blob : Blob) : promise string :=
  await (arrayBuffer blob) (fun ab =>
  settle (uint8arrayToString ab "base64urlpad")).

Definition base64StringToBlob (base64String : string) : outcome Blob :=
  match uint8arrayFromString base64String "base64urlpad" with
  | Return bytes => Return (new_Blob [bytes])
  | Throw e => Throw e
  end.

Definition fileToDataUrl (file : File) : promise js_value :=
  new_Promise (fun resolve reject =>
    let reader := new_FileReader in
    let reader := set_onloadend (fun r => resolve (result r)) reader in
    readAsDataURL reader file).

Record DownloadParams : Type := mkDownloadParams {
  filename : string;
  data : list byte;
  mimetype : string
}.

Definition downloadFile (params : DownloadParams) : dom unit :=
  element <- createElement "a" ;;
  b64 <- lift (uint8arrayToString (data params) "base64") ;;
  let element :=
    setAttribute "href" ("data:" ++ mimetype params ++ ";base64," ++ b64)%string
                 element in
  let element := setAttribute "download" (filename params) element in
  let element := setStyle "display" "none" element in
  body <- document_body ;;
  appendChild body element ;;;
  click element ;;;
  body <- document_body ;;
  removeChild body element.

Definition DATA_URL_MESSAGE : string :=
  "You can not inject an iFrame with a data url.  Try a regular https URL.".

Definition SAME_ORIGIN_MESSAGE : string :=
  "You cannot host a LIT on the same domain as the parent webpage.  This is because iFrames with the same origin have access to localstorage and cookies in the parent webpage which is unsafe".

Definition SANDBOX : string :=
  "allow-forms allow-scripts allow-popups  allow-modals allow-popups-to-escape-sandbox allow-same-origin".

Definition ALLOW : string :=
  "accelerometer; ambient-light-sensor; autoplay; battery; camera; display-capture; encrypted-media; fullscreen; geolocation; gyroscope; layout-animations; legacy-image-formats; magnetometer; microphone; midi; payment; picture-in-picture; publickey-credentials-get; sync-xhr; usb; vr; screen-wake-lock; web-share; xr-spatial-tracking".

(** [className] is optional: [None] is a call without it. *)
Record ViewerParams : Type := mkViewerParams {
  destinationId : string;
  title : string;
  fileUrl : string;
  className : option string
}.

(** Truth value of an optional text in a condition: [undefined] and the
    empty text are false. *)
Definition truthy (s : option string) : bool :=
  match s with
  | Some v => negb (String.eqb v "")
  | None => false
  end.

Definition text_of (s : option string) : string :=
  match s with
  | Some v => v
  | None => "undefined"
  end.

Definition injectViewerIFrame `{UrlParser} (params : ViewerParams)
  : dom unit :=
  if includes "data:" (fileUrl params)
  then throw (Error DATA_URL_MESSAGE)
  else
    url <- lift (new_URL (fileUrl params)) ;;
    here <- get_location_host ;;
    if String.eqb (toLowerCase (host url)) (toLowerCase here)
    then throw (Error SAME_ORIGIN_MESSAGE)
    else
      iframe <- createElement "iframe" ;;
      let iframe := set_src (fileUrl params) iframe in
      let iframe := set_title (title params) iframe in
      let iframe := set_sandbox SANDBOX iframe in
      let iframe := set_loading "lazy" iframe in
      let iframe := set_allow ALLOW iframe in
      let iframe := if truthy (className params)
                    then set_className (text_of (className params))
                                       iframe
                    else iframe in
      destination <- getElementById (destinationId params) ;;
      appendChild destination iframe.

(** The element that [injectViewerIFrame] has built by the time it looks
    for the destination, when [i] is the identity it was created with. *)
Definition viewer_frame (i : nat) (params : ViewerParams) : Node :=
  let iframe := mkNode i "iframe" [] [] [] in
  let iframe := set_src (fileUrl params) iframe in
  let iframe := set_title (title params) iframe in
  let iframe := set_sandbox SANDBOX iframe in
  let iframe := set_loading "lazy" iframe in
  let iframe := set_allow ALLOW iframe in
  if truthy (className params)
  then set_className (text_of (className params)) iframe
  else iframe.

(** The link that [downloadFile] has built by the time it appends it. *)
Definition download_link (i : nat) (params : DownloadParams) (b64 : string)
  : Node :=
  setStyle "display" "none"
    (setAttribute "download" (filename params)
       (setAttribute "href"
          ("data:" ++ mimetype params ++ ";base64," ++ b64)%string
          (mkNode i "a" [] [] []))).

(** The two refusals of [injectViewerIFrame], which the source throws as
    [Error] with these messages: the spec's [UnsafeUrlError]. *)
Inductive UnsafeUrlError : exn -> Prop :=
| data_url_unsafe : UnsafeUrlError (Error DATA_URL_MESSAGE)
| same_origin_unsafe : UnsafeUrlError (Error SAME_ORIGIN_MESSAGE).

(** ** An instance of the URL parser, to run the functions *)

(** Reads the host of a text of the shape [scheme://host/rest]: what lies
    between the first [//] and the next [/], [?] or [#].  Anything else
    does not parse. *)
Fixpoint take_host (s : string) : string :=
  match s with
  | EmptyString => EmptyString
  | String c s' =>
      if Ascii.eqb c "/" || Ascii.eqb c "?" || Ascii.eqb c "#"
      then EmptyString
      else String c (take_host s')
  end.

Fixpoint after_slashes (s : string) : option string :=
  match s with
  | EmptyString => None
  | String c s' =>
      if String.prefix "://" s then Some (substring 3 (String.length s) s)
      else after_slashes s'
  end.

#[local] Instance simple_parser : UrlParser :=
  {| new_URL text :=
       match after_slashes text with
       | Some rest => Return (mkURL (take_host rest))
       | None => Throw (TypeError "Invalid URL")
       end |}.

(** A second parser, for texts of the shape [scheme:rest] as well: when the
    text has no [://] but begins with letters and a colon, it parses to a
    record with the empty host, as [mailto:], [javascript:] and [data:]
    URLs do; the letters of the scheme may be of either case. *)
Definition is_letter (c : ascii) : bool :=
  let n := nat_of_ascii (lower c) in (97 <=? n) && (n <=? 122).

Fixpoint scheme_ends (s : string) : bool :=
  match s with
  | EmptyString => false
  | String c s' => Ascii.eqb c ":" || (is_letter c && scheme_ends s')
  end.

Definition has_scheme (s : string) : bool :=
  match s with
  | EmptyString => false
  | String c s' => is_letter c && scheme_ends s'
  end.

Definition scheme_parser : UrlParser :=
  {| new_URL text :=
       match after_slashes text with
       | Some rest => Return (mkURL (take_host rest))
       | None =>
           if has_scheme text then Return (mkURL "")
           else Throw (TypeError "Invalid URL")
       end |}.

(** What an element is by itself, its children left out. *)
Definition own (e : Node)
  : nat * string * list (string * string) * list (string * string) :=
  (nid e, localName e, attributes e, style e).

(** [k] copies of a list, one after the other. *)
Fixpoint copies (k : nat) (l : list nat) : list nat :=
  match k with
  | 0 => []
  | S k' => l ++ copies k' l
  end.

(** ** The sidebar component *)

Module Sidebar.

(** The record that [loadFromCookie(COOKIES_KEY)] gives when the cookie is
    there; [handleClick] reads this one field of it. *)
Record BannerCookiesType : Type := mkBannerCookies {
  acceptedSupportAndUpdates : bool
}.

(** The identifier the source names, [COOKIE_IDS.BEAMER]. *)
Inductive COOKIE_IDS : Type := BEAMER.

(** Argument of [openCookieBanner]; [key] is optional. *)
Record CookieBannerPayload : Type := mkPayload {
  cookieBannerOpen : bool;
  key : option COOKIE_IDS
}.

Inductive Action : Type :=
| openCookieBanner (payload : CookieBannerPayload).

(** What [handleClick] works on: the stored cookie, and the actions given to
    [dispatch] so far, oldest first. *)
Record App : Type := mkApp {
  cookie : option BannerCookiesType;
  dispatched : list Action
}.

Definition loadFromCookie (a : App) : option BannerCookiesType := cookie a.

Definition dispatch (act : Action) (a : App) : App :=
  mkApp (cookie a) (dispatched a ++ [act]).

Definition handleClick (a : App) : App :=
  let cookiesState := loadFromCookie a in
  match cookiesState with
  | None => dispatch (openCookieBanner (mkPayload true None)) a
  | Some state =>
      if negb (acceptedSupportAndUpdates state)
      then dispatch (openCookieBanner (mkPayload true (Some BEAMER))) a
      else a
  end.

(** The constants of the build that the component reads: [IS_PRODUCTION]
    and [BEAMER_ID] are imported, the third is read from [process.env]. *)
Record Build : Type := mkBuild {
  IS_PRODUCTION : bool;
  BEAMER_ID : string;
  REACT_APP_BUILD_FOR_DESKTOP : option string
}.

Inductive Component : Type :=
| DigitalTwinHeader
| StyledDivider
| List
| HelpContainer
| HelpList
| Track
| StyledListItem
| ListIcon
| StyledListItemText
| HelpCenterLink
| Lazy (path : string).

Definition helpListEnabled : bool := false.

Section Render.

(** The items of the list and the callbacks are passed on as they come. *)
Variables Item Callback : Type.

Record Props : Type := mkProps {
  safeAddress : option string;
  safeName : option string;
  balance : option string;
  granted : bool;
  onToggleSafeList : Callback;
  onReceiveClick : Callback;
  onNewTransactionClick : Callback;
  items : list Item
}.

(** Value of a prop of an element. *)
Inductive PropValue : Type :=
| PText (s : string)
| POptional (s : option string)
| PBool (b : bool)
| PCallback (c : Callback)
| PItems (l : list Item)
| PClickHandler (h : App -> App)
| PSpread (name : string).

#[local] Unset Elimination Schemes.

(** What a component returns: [null], [false], a text, a fragment, or an
    element with its props and children. *)
Inductive VNode : Type :=
| VNull
| VFalse
| VText (s : string)
| VFragment (children : list VNode)
| VElement (c : Component) (props : list (string * PropValue))
           (children : list VNode).

#[local] Set Elimination Schemes.

(** The components of the elements of a tree, in tree order. *)
Fixpoint components (v : VNode) : list Component :=
  match v with
  | VNull | VFalse | VText _ => []
  | VFragment children => flat_map components children
  | VElement c _ children => c :: flat_map components children
  end.

(** The click handlers that the elements of a tree carry. *)
Fixpoint click_handlers (v : VNode) : list (App -> App) :=
  let own_handlers :=
    flat_map (fun prop => match snd prop with
                          | PClickHandler h => [h]
                          | _ => []
                          end) in
  match v with
  | VNull | VFalse | VText _ => []
  | VFragment children => flat_map click_handlers children
  | VElement _ props children =>
      own_handlers props ++ flat_map click_handlers children
  end.

(** [wrapInSuspense] is imported. *)
Variable wrapInSuspense : VNode -> VNode.

Definition lazyLoad (path : string) : VNode :=
  wrapInSuspense (VElement (Lazy path) [] []).

Definition Sidebar (build : Build) (props : Props) : VNode :=
  let isDesktop := REACT_APP_BUILD_FOR_DESKTOP build in
  let debugToggle :=
    if IS_PRODUCTION build then VNull else lazyLoad "./DebugToggle" in
  VFragment
    [ VElement DigitalTwinHeader
        [ ("address", POptional (safeAddress props));
          ("safeName", POptional (safeName props));
          ("granted", PBool (granted props));
          ("balance", POptional (balance props));
          ("onToggleSafeList", PCallback (onToggleSafeList props));
          ("onReceiveClick", PCallback (onReceiveClick props));
          ("onNewTransactionClick", PCallback (onNewTransactionClick props)) ]
        [];
      match length (items props) with
      | 0 => VNull
      | S _ =>
          VFragment
            [ VElement StyledDivider [] [];
              VElement List [("items", PItems (items props))] [] ]
      end;
      VElement HelpContainer []
        [ debugToggle;
          VElement StyledDivider [] [];
          if helpListEnabled
          then
            VElement HelpList []
              [ if truthy isDesktop then VFalse
                else if String.eqb (BEAMER_ID build) "" then VText ""
                else
                  VElement Track [("...", PSpread "OVERVIEW_EVENTS.WHATS_NEW")]
                    [ VElement StyledListItem
                        [ ("id", PText "whats-new-button");
                          ("button", PBool true);
                          ("onClick", PClickHandler handleClick) ]
                        [ VElement ListIcon
                            [ ("type", PText "gift");
                              ("color", PText "secondary");
                              ("size", PText "sm") ] [];
                          VElement StyledListItemText []
                            [VText "What's new"] ] ];
                VElement Track [("...", PSpread "OVERVIEW_EVENTS.HELP_CENTER")]
                  [ VElement HelpCenterLink
                      [ ("href", PText "https://help.gnosis-safe.io/en/");
                        ("target", PText "_blank");
                        ("title", PText "Help Center of Gnosis Safe") ]
                      [ VElement ListIcon
                          [ ("type", PText "question");
                            ("color", PText "secondary");
                            ("size", PText "sm") ] [];
                        VElement StyledListItemText []
                          [VText "Help Center"] ] ] ]
          else VFalse ] ].

End Render.

Arguments mkProps {Item Callback}.
Arguments safeAddress {Item Callback}.
Arguments safeName {Item Callback}.
Arguments balance {Item Callback}.
Arguments granted {Item Callback}.
Arguments onToggleSafeList {Item Callback}.
Arguments onReceiveClick {Item Callback}.
Arguments onNewTransactionClick {Item Callback}.
Arguments items {Item Callback}.
Arguments VNull {Item Callback}.
Arguments VFalse {Item Callback}.
Arguments VText {Item Callback}.
Arguments VFragment {Item Callback}.
Arguments VElement {Item Callback}.
Arguments components {Item Callback}.
Arguments click_handlers {Item Callback}.
Arguments lazyLoad {Item Callback}.
Arguments Sidebar {Item Callback}.

End Sidebar.

(** A page to run the functions on: served from [example.com], with two
    [div]s in its body. *)
Definition example_body : Node :=
  mkNode 2 "body" [] []
    [ mkNode 3 "div" [("id", "viewer")] [] [];
      mkNode 4 "div" [("id", "other")] [] [] ].

Definition example_page : Page :=
  mkPage (mkNode 0 "html" [] [] [mkNode 1 "head" [] [] []; example_body])
         5 "example.com" [].

(** A file whose read fails, and a blob with a type. *)
Definition unreadable_file : File :=
  mkFile "gone.txt" (mkBlob [x68; x69] "text/plain" false).

Definition png_blob : Blob :=
  mkBlob [x89; x50; x4e; x47; xff; x00] "image/png" true.

Definition empty_blob : Blob := mkBlob [] "" true.

(** Text of a byte string literal, for examples. *)
Definition bytes_of_string (s : string) : list byte :=
  map byte_of_ascii (list_ascii_of_string s).

Example encode_hi_base64 :
  Multibase.toString (bytes_of_string "hi") "base64" = Return "aGk".
Proof. reflexivity. Qed.

Example encode_hi_base64pad :
  Multibase.toString (bytes_of_string "hi") "base64pad" = Return "aGk=".
Proof. reflexivity. Qed.

Example encode_foobar_base32pad :
  Multibase.toString (bytes_of_string "fooba") "base32padupper" = Return "MZXW6YTB"
  /\ Multibase.toString (bytes_of_string "foob") "base32padupper" = Return "MZXW6YQ="
  /\ Multibase.toString (bytes_of_string "f") "base32padupper" = Return "MY======"
  /\ Multibase.toString (bytes_of_string "foobar") "base16upper" = Return "666F6F626172"
  /\ Multibase.fromString "Zm9vYg==" "base64urlpad" = Return (bytes_of_string "foob")
  /\ Multibase.fromString "Zm9vYg" "base64" = Return (bytes_of_string "foob")
  /\ Multibase.fromString "Zm9vYh" "base64" = Throw (SyntaxError "Unexpected end of data")
  /\ Multibase.fromString "Zm9v*g" "base64" = Throw (SyntaxError "Non-base64 character").
Proof. repeat split; reflexivity. Qed.

(** * Properties *)

(** ** The codec: decoding what was encoded *)

Module MultibaseFacts.
Import Multibase.

Lemma bits_of_byte_length (b : byte) : length (bits_of_byte b) = 8.
Proof.
  unfold bits_of_byte.
  destruct (Byte.to_bits b) as [b0 [b1 [b2 [b3 [b4 [b5 [b6 b7]]]]]]].
  reflexivity.
Qed.

Lemma byte_of_bits_of_byte (b : byte) (rest : list bool) :
  byte_of_bits (bits_of_byte b ++ rest) = b.
Proof.
  unfold bits_of_byte, byte_of_bits.
  pose proof (Byte.of_bits_to_bits b) as E.
  destruct (Byte.to_bits b) as [b0 [b1 [b2 [b3 [b4 [b5 [b6 b7]]]]]]].
  simpl. exact E.
Qed.

Lemma bits_of_bytes_length (data : list byte) :
  length (bits_of_bytes data) = 8 * length data.
Proof.
  induction data as [|b data IH]; simpl; [reflexivity|].
  rewrite length_app, bits_of_byte_length, IH. lia.
Qed.

Lemma bytes_of_bits_cons (n : nat) (b : byte) (rest : list bool) :
  bytes_of_bits (S n) (bits_of_byte b ++ rest) = b :: bytes_of_bits n rest.
Proof.
  unfold bytes_of_bits. cbn [chunks map]. f_equal.
  - unfold bits_of_byte, byte_of_bits.
    pose proof (Byte.of_bits_to_bits b) as E.
    destruct (Byte.to_bits b) as [b0 [b1 [b2 [b3 [b4 [b5 [b6 b7]]]]]]].
    simpl. exact E.
  - unfold bits_of_byte.
    destruct (Byte.to_bits b) as [b0 [b1 [b2 [b3 [b4 [b5 [b6 b7]]]]]]].
    reflexivity.
Qed.

Lemma bytes_of_bits_of_bytes (data : list byte) :
  bytes_of_bits (length data) (bits_of_bytes data) = data.
Proof.
  induction data as [|b data IH]; [reflexivity|].
  cbn [length bits_of_bytes flat_map].
  rewrite bytes_of_bits_cons. f_equal. exact IH.
Qed.

Lemma chunks_concat (n k : nat) (l : list bool) :
  length l = n * k -> List.concat (chunks n k l) = l.
Proof.
  revert l; induction n as [|n IH]; intros l Hl; simpl in *.
  - destruct l; [reflexivity | discriminate].
  - rewrite IH.
    + apply firstn_skipn.
    + rewrite length_skipn. lia.
Qed.

Lemma chunks_length (n k : nat) (l : list bool) :
  length l = n * k -> Forall (fun c => length c = k) (chunks n k l).
Proof.
  revert l; induction n as [|n IH]; intros l Hl; simpl in *.
  - constructor.
  - constructor.
    + rewrite length_firstn. lia.
    + apply IH. rewrite length_skipn. lia.
Qed.

Lemma val_of_bits_snoc (l : list bool) (b : bool) :
  val_of_bits (l ++ [b]) = 2 * val_of_bits l + (if b then 1 else 0).
Proof. unfold val_of_bits. rewrite fold_left_app. reflexivity. Qed.

Lemma val_of_bits_bound (l : list bool) : val_of_bits l < 2 ^ length l.
Proof.
  induction l as [|b l IH] using rev_ind.
  - unfold val_of_bits. simpl. lia.
  - rewrite val_of_bits_snoc, length_app. simpl length.
    rewrite Nat.add_1_r, Nat.pow_succ_r'. destruct b; lia.
Qed.

Lemma bits_of_val_double (k v : nat) (b : bool) :
  bits_of_val (S k) (2 * v + (if b then 1 else 0)) = bits_of_val k v ++ [b].
Proof.
  set (w := 2 * v + (if b then 1 else 0)).
  assert (w / 2 = v) as Hdiv.
  { symmetry. apply (Nat.div_unique w 2 v (if b then 1 else 0)).
    - destruct b; lia.
    - unfold w. lia. }
  assert (Nat.odd w = b) as Hodd.
  { unfold w. destruct b.
    - rewrite Nat.add_1_r, Nat.odd_succ. apply Nat.even_spec. exists v. lia.
    - rewrite Nat.add_0_r, <- Nat.negb_even.
      apply negb_false_iff. apply Nat.even_spec. exists v. lia. }
  cbn [bits_of_val]. rewrite Hdiv, Hodd. reflexivity.
Qed.

Lemma bits_of_val_of_bits (l : list bool) :
  bits_of_val (length l) (val_of_bits l) = l.
Proof.
  induction l as [|b l IH] using rev_ind.
  - reflexivity.
  - rewrite val_of_bits_snoc, length_app. cbn [length].
    rewrite Nat.add_1_r, bits_of_val_double, IH. reflexivity.
Qed.

Lemma flat_map_bits_of_val (k : nat) (cs : list (list bool)) :
  Forall (fun c => length c = k) cs ->
  flat_map (bits_of_val k) (map val_of_bits cs) = List.concat cs.
Proof.
  induction 1 as [|c cs Hc _ IH]; simpl; [reflexivity|].
  rewrite IH. f_equal. subst k. apply bits_of_val_of_bits.
Qed.

Lemma existsb_eqb_false (c : ascii) (al : list ascii) :
  existsb (Ascii.eqb c) al = false -> ~ In c al.
Proof.
  intros H Hin.
  assert (existsb (Ascii.eqb c) al = true) as E.
  { apply existsb_exists. exists c. split; [exact Hin | apply Ascii.eqb_refl]. }
  congruence.
Qed.

Lemma index_of_nth (al : list ascii) (v : nat) :
  distinct al = true -> v < length al ->
  index_of (char_of_val al v) al = Some v.
Proof.
  unfold char_of_val.
  revert v; induction al as [|a al IH]; intros v Hd Hv; simpl in *; [lia|].
  apply andb_true_iff in Hd as [Ha Hd].
  apply negb_true_iff in Ha.
  destruct v as [|v].
  - rewrite Ascii.eqb_refl. reflexivity.
  - destruct (Ascii.eqb a (nth v al pad_char)) eqn:E.
    + apply Ascii.eqb_eq in E.
      exfalso. apply (existsb_eqb_false _ _ Ha).
      rewrite E. apply nth_In. lia.
    + rewrite IH by (assumption || lia). reflexivity.
Qed.

Lemma char_of_val_not_pad (al : list ascii) (v : nat) :
  existsb (Ascii.eqb pad_char) al = false -> v < length al ->
  Ascii.eqb (char_of_val al v) pad_char = false.
Proof.
  intros Hp Hv. apply Ascii.eqb_neq. intros E.
  apply (existsb_eqb_false _ _ Hp). rewrite <- E.
  apply nth_In. exact Hv.
Qed.

Lemma strip_padding_repeat (q : nat) : strip_padding (repeat pad_char q) = [].
Proof. induction q as [|q IH]; simpl; [reflexivity|]. rewrite IH. reflexivity. Qed.

Lemma strip_padding_body (body : list ascii) (q : nat) :
  Forall (fun c => Ascii.eqb c pad_char = false) body ->
  strip_padding (body ++ repeat pad_char q) = body.
Proof.
  induction 1 as [|c body Hc _ IH]; simpl.
  - apply strip_padding_repeat.
  - rewrite IH. destruct body; [rewrite Hc|]; reflexivity.
Qed.

Lemma values_of_chars (al : list ascii) (vs : list nat) :
  distinct al = true -> Forall (fun v => v < length al) vs ->
  values_of al (map (char_of_val al) vs) = Some vs.
Proof.
  intros Hd. induction 1 as [|v vs Hv _ IH]; simpl; [reflexivity|].
  rewrite index_of_nth, IH by assumption. reflexivity.
Qed.

(** The number of characters: enough for all the bits, fewer than one
    character's worth of filling. *)
Lemma chars_needed (m k : nat) :
  1 <= k ->
  let n := (m + k - 1) / k in m <= n * k < m + k.
Proof.
  intros Hk n.
  pose proof (Nat.div_mod_eq (m + k - 1) k) as E.
  pose proof (Nat.mod_upper_bound (m + k - 1) k ltac:(lia)) as B.
  fold n in E. nia.
Qed.

Section RoundTrip.
Variable b : Base.
Hypothesis b_ok : base_ok b = true.

Let k := bitsPerChar b.

Lemma base_ok_facts :
  1 <= k /\ k <= 8 /\ length (alphabet b) = 2 ^ k
  /\ distinct (alphabet b) = true
  /\ existsb (Ascii.eqb pad_char) (alphabet b) = false.
Proof.
  unfold base_ok in b_ok. fold k in b_ok.
  repeat (apply andb_true_iff in b_ok as [b_ok ?]).
  repeat split;
    try (apply Nat.leb_le; assumption);
    try (apply Nat.eqb_eq; assumption);
    try assumption.
  apply negb_true_iff. assumption.
Qed.

Lemma decode_encode (data : list byte) :
  decode b (encode b data) = inr data.
Proof.
  destruct base_ok_facts as (Hk1 & Hk8 & Hlen & Hdist & Hpad).
  unfold decode, encode. fold k.
  set (bits := bits_of_bytes data).
  set (n := (length bits + k - 1) / k).
  set (filled := bits ++ repeat false (n * k - length bits)).
  set (cs := chunks n k filled).
  pose proof (chars_needed (length bits) k Hk1) as Hn. fold n in Hn. simpl in Hn.
  assert (length filled = n * k) as Hfilled.
  { unfold filled. rewrite length_app, repeat_length. lia. }
  assert (Forall (fun c => length c = k) cs) as Hcs
      by (apply chunks_length; exact Hfilled).
  assert (Forall (fun v => v < length (alphabet b)) (map val_of_bits cs)) as Hvs.
  { apply Forall_map. eapply Forall_impl; [|exact Hcs].
    intros c Hc. simpl in Hc. rewrite Hlen, <- Hc. apply val_of_bits_bound. }
  set (body := map (fun c => char_of_val (alphabet b) (val_of_bits c)) cs).
  assert (body = map (char_of_val (alphabet b)) (map val_of_bits cs)) as Hbody
      by (unfold body; rewrite map_map; reflexivity).
  assert (Forall (fun c => Ascii.eqb c pad_char = false) body) as Hnopad.
  { rewrite Hbody. apply Forall_map. eapply Forall_impl; [|exact Hvs].
    intros v Hv. apply char_of_val_not_pad; assumption. }
  assert (strip_padding
            (if padding b then body ++ repeat pad_char (pad_count 8 n k)
             else body) = body) as Hstrip.
  { destruct (padding b).
    - apply strip_padding_body. exact Hnopad.
    - rewrite <- (app_nil_r body) at 1.
      change [] with (repeat pad_char 0).
      apply strip_padding_body. exact Hnopad. }
  rewrite Hstrip, Hbody, values_of_chars by assumption.
  rewrite flat_map_bits_of_val by exact Hcs.
  unfold cs. rewrite chunks_concat by exact Hfilled.
  pose proof (bits_of_bytes_length data) as Hbits. fold bits in Hbits.
  assert (length filled / 8 = length data) as Hdiv.
  { rewrite Hfilled. symmetry.
    apply (Nat.div_unique (n * k) 8 (length data) (n * k - 8 * length data)); lia. }
  rewrite Hdiv.
  assert (firstn (8 * length data) filled = bits) as Hfirst.
  { unfold filled. rewrite <- Hbits, firstn_app, firstn_all.
    replace (length bits - length bits) with 0 by lia.
    simpl. apply app_nil_r. }
  assert (skipn (8 * length data) filled
          = repeat false (n * k - length bits)) as Hskip.
  { unfold filled. rewrite <- Hbits, skipn_app, skipn_all.
    replace (length bits - length bits) with 0 by lia. reflexivity. }
  rewrite Hfirst, Hskip, repeat_length.
  replace (n * k - length bits <? k) with true
    by (symmetry; apply Nat.ltb_lt; lia).
  replace (forallb negb (repeat false (n * k - length bits))) with true.
  - simpl. unfold bits. rewrite bytes_of_bits_of_bytes. reflexivity.
  - symmetry. apply forallb_forall. intros x Hx.
    apply repeat_spec in Hx. subst x. reflexivity.
Qed.
End RoundTrip.

Lemma lookup_ok (name : string) (b : Base) :
  lookup name registry = Some b -> base_ok b = true.
Proof.
  unfold registry. simpl.
  repeat match goal with
         | |- (if ?c then _ else _) = Some _ -> _ =>
             destruct c; [intros E; injection E as <-; vm_compute; reflexivity|]
         end.
  discriminate.
Qed.

End MultibaseFacts.

(** ** Text *)

Lemma prefix_app (needle rest : string) :
  String.prefix needle (needle ++ rest)%string = true.
Proof.
  induction needle as [|c needle IH]; simpl; [destruct rest; reflexivity|].
  destruct (ascii_dec c c) as [_|N]; [exact IH | contradiction].
Qed.

Lemma prefix_inv (needle hay : string) :
  String.prefix needle hay = true ->
  exists rest, hay = (needle ++ rest)%string.
Proof.
  revert hay; induction needle as [|c needle IH]; intros hay Hp.
  - exists hay. reflexivity.
  - destruct hay as [|c' hay]; [discriminate|]. simpl in Hp.
    destruct (ascii_dec c c') as [<-|_]; [|discriminate].
    destruct (IH _ Hp) as [rest ->]. exists rest. reflexivity.
Qed.

Lemma includes_head (needle rest : string) :
  includes needle (needle ++ rest)%string = true.
Proof.
  destruct needle as [|c needle].
  - destruct rest; reflexivity.
  - change (String.prefix (String c needle) (String c needle ++ rest)%string
            || includes (String c needle) (needle ++ rest)%string = true).
    rewrite prefix_app. reflexivity.
Qed.

(** [includes] finds the text wherever it occurs. *)
Lemma includes_occurrence (needle before after : string) :
  includes needle (before ++ needle ++ after)%string = true.
Proof.
  induction before as [|c before IH].
  - exact (includes_head needle after).
  - simpl. rewrite IH. apply orb_true_r.
Qed.

Lemma includes_inv (needle hay : string) :
  includes needle hay = true ->
  exists before after, hay = (before ++ needle ++ after)%string.
Proof.
  induction hay as [|c hay IH]; intros H.
  - unfold includes in H. rewrite orb_false_r in H.
    destruct (prefix_inv _ _ H) as [rest E].
    exists EmptyString, rest. exact E.
  - change (String.prefix needle (String c hay) || includes needle hay = true)
      in H.
    apply orb_true_iff in H as [H|H].
    + destruct (prefix_inv _ _ H) as [rest E].
      exists EmptyString, rest. exact E.
    + destruct (IH H) as (before & after & ->).
      exists (String c before), after. reflexivity.
Qed.

(** ** The tree of elements *)

Module DomFacts.

Lemma map_fixed {A} (f : A -> A) (l : list A) :
  Forall (fun x => f x = x) l -> map f l = l.
Proof. induction 1 as [|x l Hx _ IH]; simpl; congruence. Qed.

Lemma find_app {A} (f : A -> bool) (l1 l2 : list A) :
  find f (l1 ++ l2)
  = match find f l1 with Some x => Some x | None => find f l2 end.
Proof.
  induction l1 as [|x l1 IH]; simpl; [reflexivity|].
  destruct (f x); [reflexivity | exact IH].
Qed.

Lemma NoDup_app_disjoint {A} (l1 l2 : list A) (x : A) :
  NoDup (l1 ++ l2) -> In x l1 -> In x l2 -> False.
Proof.
  induction l1 as [|a l1 IH]; simpl; intros Hnd H1 H2; [contradiction|].
  apply NoDup_cons_iff in Hnd as [Ha Hnd].
  destruct H1 as [->|H1].
  - apply Ha. apply in_or_app. right. exact H2.
  - exact (IH Hnd H1 H2).
Qed.

Lemma nodes_unfold (n : Node) :
  nodes n = n :: flat_map nodes (childNodes n).
Proof. destruct n; reflexivity. Qed.

Lemma nids_flat_map (cs : list Node) :
  map nid (flat_map nodes cs) = flat_map nids cs.
Proof.
  induction cs as [|c cs IH]; simpl; [reflexivity|].
  rewrite map_app, IH. reflexivity.
Qed.

Lemma nids_unfold (n : Node) :
  nids n = nid n :: flat_map nids (childNodes n).
Proof.
  unfold nids at 1. rewrite nodes_unfold. simpl.
  rewrite nids_flat_map. reflexivity.
Qed.

Lemma nids_node i name attrs sty cs :
  nids (mkNode i name attrs sty cs) = i :: flat_map nids cs.
Proof. apply nids_unfold. Qed.

Lemma nodes_nid_in (x n : Node) : In x (nodes n) -> In (nid x) (nids n).
Proof. intros H. unfold nids. apply in_map. exact H. Qed.

Lemma child_nids_in (c : Node) (cs : list Node) (i : nat) :
  In c cs -> In i (nids c) -> In i (flat_map nids cs).
Proof. intros Hc Hi. apply in_flat_map. exists c. split; assumption. Qed.

(** Appending below a node that the tree does not have changes nothing. *)
Lemma appendChildTo_absent (t : nat) (c n : Node) :
  ~ In t (nids n) -> appendChildTo t c n = n.
Proof.
  induction n as [i name attrs sty cs IH] using Node_tree_ind.
  rewrite nids_node. intros Hnot. simpl.
  destruct (Nat.eqb_spec i t) as [->|_]; [exfalso; apply Hnot; left; reflexivity|].
  f_equal. apply map_fixed.
  rewrite Forall_forall in IH |- *. intros x Hx. apply IH; [exact Hx|].
  intros Hin. apply Hnot. right. eapply child_nids_in; eassumption.
Qed.

Lemma removeChildFrom_absent (t ch : nat) (n : Node) :
  ~ In t (nids n) -> removeChildFrom t ch n = n.
Proof.
  induction n as [i name attrs sty cs IH] using Node_tree_ind.
  rewrite nids_node. intros Hnot. simpl.
  destruct (Nat.eqb_spec i t) as [->|_]; [exfalso; apply Hnot; left; reflexivity|].
  f_equal. apply map_fixed.
  rewrite Forall_forall in IH |- *. intros x Hx. apply IH; [exact Hx|].
  intros Hin. apply Hnot. right. eapply child_nids_in; eassumption.
Qed.

Lemma filter_keeps_all {A} (f : A -> bool) (l : list A) :
  Forall (fun x => f x = true) l -> filter f l = l.
Proof.
  induction 1 as [|x l Hx _ IH]; simpl; [reflexivity|].
  rewrite Hx, IH. reflexivity.
Qed.

(** Removing the child that was just appended gives the tree back. *)
Lemma removeChildFrom_appendChildTo (t : nat) (c n : Node) :
  ~ In (nid c) (nids n) -> ~ In t (nids c) ->
  removeChildFrom t (nid c) (appendChildTo t c n) = n.
Proof.
  intros Hfresh Hc.
  induction n as [i name attrs sty cs IH] using Node_tree_ind.
  rewrite nids_node in Hfresh.
  assert (map (removeChildFrom t (nid c)) (map (appendChildTo t c) cs) = cs)
    as Hmap.
  { rewrite map_map. apply map_fixed.
    rewrite Forall_forall in IH |- *. intros x Hx. apply IH; [exact Hx|].
    intros Hin. apply Hfresh. right. eapply child_nids_in; eassumption. }
  simpl. destruct (Nat.eqb_spec i t) as [->|Hne]; simpl.
  - f_equal.
    rewrite map_app, Hmap. simpl.
    rewrite removeChildFrom_absent by exact Hc.
    rewrite filter_app. simpl. rewrite Nat.eqb_refl. simpl.
    rewrite app_nil_r. apply filter_keeps_all.
    apply Forall_forall. intros x Hx.
    apply negb_true_iff. apply Nat.eqb_neq. intros E.
    apply Hfresh. right. rewrite <- E.
    eapply child_nids_in; [exact Hx|].
    rewrite nids_unfold. left. reflexivity.
  - f_equal. exact Hmap.
Qed.

(** After appending below a node of the tree, that node has the child and
    the child is in the tree. *)
Lemma appendChildTo_parent (t : nat) (c n : Node) :
  In t (nids n) ->
  exists x, In x (nodes (appendChildTo t c n))
            /\ nid x = t /\ In c (childNodes x).
Proof.
  induction n as [i name attrs sty cs IH] using Node_tree_ind.
  rewrite nids_node. intros Hin.
  destruct (Nat.eq_dec i t) as [->|Hne].
  - eexists. split; [rewrite nodes_unfold; left; reflexivity|].
    simpl. rewrite Nat.eqb_refl. split; [reflexivity|].
    apply in_or_app. right. left. reflexivity.
  - destruct Hin as [E|Hin]; [contradiction|].
    apply in_flat_map in Hin as (ci & Hci & Hti).
    rewrite Forall_forall in IH.
    destruct (IH ci Hci Hti) as (x & Hx & Hnid & Hchild).
    exists x. split; [|split; assumption].
    rewrite nodes_unfold. right. simpl.
    destruct (Nat.eqb_spec i t) as [E|_]; [contradiction|].
    apply in_flat_map. exists (appendChildTo t c ci).
    split; [apply in_map; exact Hci | exact Hx].
Qed.

Lemma child_in_nodes (x c n : Node) :
  In x (nodes n) -> In c (childNodes x) -> In c (nodes n).
Proof.
  induction n as [i name attrs sty cs IH] using Node_tree_ind.
  rewrite nodes_unfold. simpl. intros [<-|Hx] Hc.
  - right. simpl in Hc. apply in_flat_map. exists c.
    split; [exact Hc | rewrite nodes_unfold; left; reflexivity].
  - right. apply in_flat_map in Hx as (ci & Hci & Hx).
    rewrite Forall_forall in IH.
    apply in_flat_map. exists ci. split; [exact Hci|].
    apply IH; assumption.
Qed.

(** Number of nodes after appending: one copy of the child for each node
    called [t]. *)
Lemma appendChildTo_size (t : nat) (c n : Node) :
  length (nodes (appendChildTo t c n))
  = length (nodes n) + count_occ Nat.eq_dec (nids n) t * length (nodes c).
Proof.
  remember (length (nodes c)) as L eqn:HL.
  induction n as [i name attrs sty cs IH] using Node_tree_ind.
  rewrite nids_node, !nodes_unfold. cbn [length childNodes appendChildTo nid].
  assert (length (flat_map nodes (map (appendChildTo t c) cs))
          = length (flat_map nodes cs)
            + count_occ Nat.eq_dec (flat_map nids cs) t * L)
    as Hcs.
  { induction IH as [|ci cs Hci _ IHcs]; simpl; [reflexivity|].
    rewrite !length_app, count_occ_app, Hci, IHcs.
    rewrite Nat.mul_add_distr_r. lia. }
  cbn [count_occ].
  destruct (Nat.eq_dec i t) as [->|Hne].
  - rewrite Nat.eqb_refl, flat_map_app, length_app, Hcs.
    cbn [flat_map]. rewrite app_nil_r, <- HL, Nat.mul_succ_l. lia.
  - destruct (Nat.eqb_spec i t) as [E|_]; [contradiction|].
    rewrite Hcs. lia.
Qed.

Section FirstMatch.
(** A test on elements that does not look at the children: the test for
    an ID and the test for an identity are such. *)
Variable f : Node -> bool.
Hypothesis f_local : forall i name attrs sty cs cs',
    f (mkNode i name attrs sty cs) = f (mkNode i name attrs sty cs').

Variable c : Node.

(** In a tree with distinct identities, the first element that passes the
    test is still the first after a child was appended to it, and it is
    the same element with that one child more. *)
Lemma find_appendChildTo (d n : Node) :
  NoDup (nids n) -> find f (nodes n) = Some d ->
  find f (nodes (appendChildTo (nid d) c n)) = Some (with_child c d).
Proof.
  induction n as [i name attrs sty cs IH] using Node_tree_ind.
  rewrite nids_node. intros Hnd Hfind.
  apply NoDup_cons_iff in Hnd as [Hi Hnd].
  rewrite nodes_unfold in Hfind. cbn [find childNodes] in Hfind.
  destruct (f (mkNode i name attrs sty cs)) eqn:Hf.
  - injection Hfind as <-. cbn [nid appendChildTo].
    rewrite Nat.eqb_refl, nodes_unfold. cbn [find].
    rewrite (f_local i name attrs sty _ cs), Hf. unfold with_child. simpl.
    do 3 f_equal. apply map_fixed. apply Forall_forall. intros x Hx.
    apply appendChildTo_absent. intros Hin. apply Hi.
    eapply child_nids_in; eassumption.
  - assert (In d (flat_map nodes cs)) as Hd
        by (apply find_some in Hfind; tauto).
    assert (i <> nid d) as Hne.
    { intros ->. apply Hi. rewrite <- nids_flat_map. apply in_map. exact Hd. }
    cbn [appendChildTo nid].
    destruct (Nat.eqb_spec i (nid d)) as [E|_]; [contradiction|].
    rewrite nodes_unfold. cbn [find childNodes].
    rewrite (f_local i name attrs sty _ cs), Hf.
    clear Hf Hi Hne Hd.
    induction IH as [|ci cs Hci _ IHcs]; [discriminate|].
    simpl in Hnd, Hfind |- *.
    rewrite find_app in Hfind |- *.
    destruct (find f (nodes ci)) as [d'|] eqn:Hci'.
    + injection Hfind as ->.
      rewrite Hci; [reflexivity | | reflexivity].
      apply NoDup_app_remove_r in Hnd. exact Hnd.
    + assert (In d (flat_map nodes cs)) as Hd
          by (apply find_some in Hfind; tauto).
      rewrite appendChildTo_absent.
      * rewrite Hci'. apply IHcs; [|exact Hfind].
        apply NoDup_app_remove_l in Hnd. exact Hnd.
      * intros Hin.
        apply (NoDup_app_disjoint _ _ (nid d) Hnd Hin).
        rewrite <- nids_flat_map. apply in_map. exact Hd.
Qed.
End FirstMatch.

End DomFacts.

(** ** The codec functions and the blob conversions *)

(** Decoding, under a scheme of the registry, what was encoded under it. *)
Lemma fromString_toString (b : list byte) (e : string) :
  Multibase.rfc4648 e = true ->
  exists s, Multibase.toString b e = Return s
            /\ Multibase.fromString s e = Return b.
Proof.
  unfold Multibase.rfc4648, Multibase.toString, Multibase.fromString.
  destruct (Multibase.lookup e Multibase.registry) as [base|] eqn:E;
    [intros _ | discriminate].
  eexists. split; [reflexivity|].
  rewrite list_ascii_of_string_of_list_ascii.
  rewrite (MultibaseFacts.decode_encode base (MultibaseFacts.lookup_ok e base E)).
  reflexivity.
Qed.



(** The names listed in C6 are the names of the registry. *)
Lemma registry_names :
  map fst Multibase.registry
  = [ "base2"; "base8"; "base16"; "base16upper";
      "base32"; "base32upper"; "base32pad"; "base32padupper";
      "base32hex"; "base32hexupper"; "base32hexpad"; "base32hexpadupper";
      "base32z";
      "base64"; "base64pad"; "base64url"; "base64urlpad" ].
Proof. reflexivity. Qed.


(** On bytes that are all ASCII, [utf8] does give the bytes back. *)
Lemma utf8_decode_ascii (data : list byte) :
  Forall (fun b => Multibase.code b <= 127) data ->
  Multibase.utf8_decode Multibase.utf8_start data = data.
Proof.
  induction 1 as [|b data Hb _ IH]; [reflexivity|].
  cbn [Multibase.utf8_decode Multibase.needed Multibase.utf8_start].
  unfold Multibase.utf8_lead.
  apply Nat.leb_le in Hb. rewrite Hb.
  cbn [app]. f_equal. exact IH.
Qed.

Lemma bytes_of_text_of_bytes (data : list byte) :
  Multibase.bytes_of_text (Multibase.text_of_bytes data) = data.
Proof.
  unfold Multibase.bytes_of_text, Multibase.text_of_bytes.
  rewrite list_ascii_of_string_of_list_ascii, map_map.
  induction data as [|b data IH]; simpl; [reflexivity|].
  rewrite byte_of_ascii_of_byte, IH. reflexivity.
Qed.

Lemma utf8_round_trip_ascii (data : list byte) :
  Forall (fun b => Multibase.code b <= 127) data ->
  exists s, uint8arrayToString data "utf8" = Return s
            /\ uint8arrayFromString s "utf8" = Return data.
Proof.
  intros Hascii. eexists. split; [reflexivity|].
  unfold uint8arrayFromString, Multibase.fromString.
  cbn [Multibase.lookup Multibase.registry].
  change (Return (Multibase.bytes_of_text
                    (Multibase.text_of_bytes
                       (Multibase.utf8_decode Multibase.utf8_start data)))
          = Return data).
  rewrite bytes_of_text_of_bytes, utf8_decode_ascii by exact Hascii.
  reflexivity.
Qed.

Lemma blobToBase64String_resolves (blob : Blob) :
  blob_readable blob = true ->
  exists s, blobToBase64String blob = Resolved s
            /\ uint8arrayToString (blob_bytes blob) "base64urlpad" = Return s.
Proof.
  intros Hr. unfold blobToBase64String, arrayBuffer. rewrite Hr. cbn [await].
  destruct (fromString_toString (blob_bytes blob) "base64urlpad" eq_refl)
    as (s & Hs & _).
  exists s. unfold uint8arrayToString. rewrite Hs. split; reflexivity.
Qed.

Lemma base64StringToBlob_after_blobToBase64String (blob : Blob) :
  blob_readable blob = true ->
  exists s, blobToBase64String blob = Resolved s
            /\ base64StringToBlob s
               = Return (mkBlob (blob_bytes blob) "" true).
Proof.
  intros Hr. unfold blobToBase64String, arrayBuffer. rewrite Hr. cbn [await].
  destruct (fromString_toString (blob_bytes blob) "base64urlpad" eq_refl)
    as (s & Hs & Hd).
  exists s. unfold uint8arrayToString. rewrite Hs. split; [reflexivity|].
  unfold base64StringToBlob, uint8arrayFromString. rewrite Hd.
  unfold new_Blob. simpl.
  rewrite app_nil_r. reflexivity.
Qed.

(** C7.  For every blob that can be read, [blobToBase64String] resolves,
    and [base64StringToBlob] of the text it resolves to returns a blob with
    the bytes of the original; this holds for empty content too. *)
Theorem blob_content_round_trip (blob : Blob) :
  blob_readable blob = true ->
  exists s blob',
    blobToBase64String blob = Resolved s
    /\ base64StringToBlob s = Return blob'
    /\ blob_bytes blob' = blob_bytes blob.
Proof.
  intros Hr. destruct (base64StringToBlob_after_blobToBase64String blob Hr) as (s & Hs & Hb).
  exists s, (mkBlob (blob_bytes blob) "" true).
  split; [exact Hs|]. split; [exact Hb | reflexivity].
Qed.

Lemma blob_content_round_trip_witness :
  blob_readable empty_blob = true
  /\ exists s blob',
       blobToBase64String empty_blob = Resolved s
       /\ base64StringToBlob s = Return blob'
       /\ blob_bytes blob' = blob_bytes empty_blob.
Proof. split; [reflexivity | apply (blob_content_round_trip empty_blob); reflexivity]. Defined.

(** C10.  For every blob that can be read, the blob that comes back from
    [base64StringToBlob (blobToBase64String blob)] has the empty type,
    whatever the type of the original was: the bytes are kept, the type is
    kept only when it was empty already. *)
Theorem round_trip_blob_type_is_empty (blob : Blob) :
  blob_readable blob = true ->
  exists s blob',
    blobToBase64String blob = Resolved s
    /\ base64StringToBlob s = Return blob'
    /\ blob_type blob' = ""
    /\ blob_bytes blob' = blob_bytes blob
    /\ (blob_type blob' = blob_type blob <-> blob_type blob = "").
Proof.
  intros Hr. destruct (base64StringToBlob_after_blobToBase64String blob Hr) as (s & Hs & Hb).
  exists s, (mkBlob (blob_bytes blob) "" true).
  split; [exact Hs|]. split; [exact Hb|]. simpl.
  split; [reflexivity|]. split; [reflexivity|].
  split; intros E; congruence.
Qed.

Lemma round_trip_blob_type_is_empty_witness :
  blob_readable png_blob = true
  /\ exists s blob',
       blobToBase64String png_blob = Resolved s
       /\ base64StringToBlob s = Return blob'
       /\ blob_type blob' = ""
       /\ blob_bytes blob' = blob_bytes png_blob
       /\ (blob_type blob' = blob_type png_blob <-> blob_type png_blob = "").
Proof.
  split; [reflexivity | apply (round_trip_blob_type_is_empty png_blob); reflexivity].
Defined.

(** A blob that cannot be read: the promise is rejected. *)
Lemma blobToBase64String_rejects (blob : Blob) :
  blob_readable blob = false ->
  blobToBase64String blob = Rejected (DOMException "NotReadableError").
Proof. intros Hr. unfold blobToBase64String, arrayBuffer. rewrite Hr. reflexivity. Qed.

(** ** [fileToDataUrl] *)

Lemma fileToDataUrl_readable (file : File) :
  blob_readable (file_blob file) = true ->
  exists rest, fileToDataUrl file = Resolved (JString ("data:" ++ rest)).
Proof.
  intros Hr. unfold fileToDataUrl, new_Promise, readAsDataURL, read_data.
  rewrite Hr. simpl. eexists. unfold data_url_of. reflexivity.
Qed.

Lemma fileToDataUrl_unreadable (file : File) :
  blob_readable (file_blob file) = false ->
  fileToDataUrl file = Resolved JNull.
Proof.
  intros Hr. unfold fileToDataUrl, new_Promise, readAsDataURL, read_data.
  rewrite Hr. reflexivity.
Qed.

(** The promise of [fileToDataUrl] is never rejected. *)
Lemma fileToDataUrl_never_rejects (file : File) (e : exn) :
  fileToDataUrl file <> Rejected e.
Proof.
  destruct (blob_readable (file_blob file)) eqn:Hr.
  - destruct (fileToDataUrl_readable file Hr) as [rest ->]. discriminate.
  - rewrite (fileToDataUrl_unreadable file Hr). discriminate.
Qed.

(** C3.  On a file whose read fails, the promise of [fileToDataUrl] is
    resolved, with [null]; it is not rejected.  The handler is set for
    [loadend], which the reader fires after a failed read as well, and the
    [reject] function of the executor is never called. *)
Theorem fileToDataUrl_failed_read_resolves_null :
  blob_readable (file_blob unreadable_file) = false
  /\ fileToDataUrl unreadable_file = Resolved JNull
  /\ forall e, fileToDataUrl unreadable_file <> Rejected e.
Proof.
  split; [reflexivity|]. split; [reflexivity|].
  intros e. apply fileToDataUrl_never_rejects.
Qed.

(** ** [injectViewerIFrame] *)

(** What a call does, by the guard that decides it. *)
Lemma injectViewerIFrame_cases `{UrlParser} (params : ViewerParams) (p : Page) :
  injectViewerIFrame params p =
  if includes "data:" (fileUrl params)
  then (Throw (Error DATA_URL_MESSAGE), p)
  else
    match new_URL (fileUrl params) with
    | Throw e => (Throw e, p)
    | Return u =>
        if String.eqb (toLowerCase (host u)) (toLowerCase (location_host p))
        then (Throw (Error SAME_ORIGIN_MESSAGE), p)
        else
          let p1 := mkPage (root p) (S (next_nid p)) (location_host p)
                           (clicks p) in
          match find (has_id (destinationId params)) (nodes (root p)) with
          | None => (Throw (TypeError "Cannot read properties of null"), p1)
          | Some d =>
              (Return tt,
               set_root (appendChildTo (nid d)
                           (viewer_frame (next_nid p) params) (root p)) p1)
          end
    end.
Proof.
  unfold injectViewerIFrame.
  destruct (includes "data:" (fileUrl params)); [reflexivity|].
  unfold bind at 1. unfold lift.
  destruct (new_URL (fileUrl params)) as [u|e]; [|reflexivity].
  unfold bind at 1. unfold get_location_host.
  destruct (String.eqb (toLowerCase (host u)) (toLowerCase (location_host p)));
    [reflexivity|].
  unfold bind, createElement, getElementById, viewer_frame. cbn [root].
  destruct (find (has_id (destinationId params)) (nodes (root p)));
    reflexivity.
Qed.

(** A call whose [fileUrl] begins with the lower-case text [data:], such as
    [data:text/html,...], throws the data-URL refusal, an [UnsafeUrlError],
    whatever [destinationId], [title] and [className] are, and leaves the
    page as it was. *)
Theorem injectViewerIFrame_refuses_data_uri `{UrlParser}
    (destinationId title rest : string) (className : option string)
    (p : Page) :
  injectViewerIFrame
    (mkViewerParams destinationId title ("data:" ++ rest) className) p
  = (Throw (Error DATA_URL_MESSAGE), p)
  /\ UnsafeUrlError (Error DATA_URL_MESSAGE).
Proof.
  split; [|constructor].
  rewrite injectViewerIFrame_cases. cbn [fileUrl].
  rewrite (includes_head "data:" rest). reflexivity.
Qed.

(** The guard looks for the lower-case text only. *)
Example data_guard_is_case_sensitive :
  includes "data:" "DATA:text/html,hi" = false
  /\ includes "data:" "  data:text/html,hi" = true.
Proof. split; reflexivity. Qed.

(** C9.  A call whose [fileUrl] has the text [data:] anywhere in it throws
    the data-URL refusal and leaves the page as it was: what comes before
    the occurrence, an [https] scheme and a foreign host included, makes no
    difference. *)
Theorem injectViewerIFrame_refuses_any_data_occurrence `{UrlParser}
    (destinationId title before after : string) (className : option string)
    (p : Page) :
  injectViewerIFrame
    (mkViewerParams destinationId title (before ++ "data:" ++ after) className)
    p
  = (Throw (Error DATA_URL_MESSAGE), p).
Proof.
  rewrite injectViewerIFrame_cases. cbn [fileUrl].
  rewrite (includes_occurrence "data:" before after). reflexivity.
Qed.

(** An [https] URL on a foreign host, which the parser accepts, is refused
    for the [data:] in its query. *)
Example https_url_with_data_in_query :
  new_URL "https://lit.example.org/view?src=data:1"
  = Return (mkURL "lit.example.org")
  /\ injectViewerIFrame
       (mkViewerParams "viewer" "T" "https://lit.example.org/view?src=data:1"
                       None) example_page
     = (Throw (Error DATA_URL_MESSAGE), example_page).
Proof. split; reflexivity. Qed.

(** C2.  A call whose [fileUrl] parses to a host that is the page's host up
    to letter case throws an [UnsafeUrlError] and leaves the page as it
    was; the error is the same-origin refusal unless the text has [data:]
    in it, which is refused first. *)
Theorem injectViewerIFrame_refuses_same_host `{UrlParser}
    (params : ViewerParams) (p : Page) (u : URL) :
  new_URL (fileUrl params) = Return u ->
  toLowerCase (host u) = toLowerCase (location_host p) ->
  exists e,
    injectViewerIFrame params p = (Throw e, p)
    /\ UnsafeUrlError e
    /\ (includes "data:" (fileUrl params) = false ->
        e = Error SAME_ORIGIN_MESSAGE).
Proof.
  intros Hu Hhost. rewrite injectViewerIFrame_cases.
  destruct (includes "data:" (fileUrl params)).
  - eexists. split; [reflexivity|]. split; [constructor | discriminate].
  - rewrite Hu, Hhost, String.eqb_refl.
    eexists. split; [reflexivity|]. split; [constructor | reflexivity].
Qed.

Lemma injectViewerIFrame_refuses_same_host_witness :
  new_URL "https://EXAMPLE.com/lit.html" = Return (mkURL "EXAMPLE.com")
  /\ toLowerCase "EXAMPLE.com" = toLowerCase (location_host example_page)
  /\ exists e,
       injectViewerIFrame
         (mkViewerParams "viewer" "T" "https://EXAMPLE.com/lit.html" None)
         example_page
       = (Throw e, example_page)
       /\ UnsafeUrlError e
       /\ (includes "data:" "https://EXAMPLE.com/lit.html" = false ->
           e = Error SAME_ORIGIN_MESSAGE).
Proof.
  split; [reflexivity|]. split; [reflexivity|].
  apply (injectViewerIFrame_refuses_same_host
           (mkViewerParams "viewer" "T" "https://EXAMPLE.com/lit.html" None)
           example_page (mkURL "EXAMPLE.com"));
    reflexivity.
Defined.

(** The attributes of the element a call builds. *)
Lemma viewer_frame_attributes (i : nat) (params : ViewerParams) :
  nid (viewer_frame i params) = i
  /\ localName (viewer_frame i params) = "iframe"
  /\ childNodes (viewer_frame i params) = []
  /\ get_src (viewer_frame i params) = fileUrl params
  /\ get_title (viewer_frame i params) = title params
  /\ get_sandbox (viewer_frame i params) = SANDBOX
  /\ get_loading (viewer_frame i params) = "lazy"
  /\ get_allow (viewer_frame i params) = ALLOW
  /\ getAttribute "id" (viewer_frame i params) = None.
Proof.
  unfold viewer_frame.
  destruct (truthy (className params)); repeat split; reflexivity.
Qed.

Lemma viewer_frame_className (i : nat) (params : ViewerParams) (c : string) :
  className params = Some c -> get_className (viewer_frame i params) = c.
Proof.
  intros E. unfold viewer_frame. rewrite E. simpl.
  destruct (String.eqb_spec c ""); [subst c|]; reflexivity.
Qed.

Lemma has_id_local (id : string) i name attrs sty cs cs' :
  has_id id (mkNode i name attrs sty cs) = has_id id (mkNode i name attrs sty cs').
Proof. reflexivity. Qed.

Lemma toLowerCase_empty (s : string) : toLowerCase s = "" -> s = "".
Proof. destruct s; [reflexivity | discriminate]. Qed.

(** C1.  The inline data URI [DATA:text/html,hi], whose scheme is written in
    upper case, is not refused.  With a URL parser that gives it a record
    with the empty host, as the URL standard does for a [data:] URL, on a
    page whose own host is not empty and where the [destinationId] given
    names an element, the call returns and has appended under that element an
    [iframe] whose [src] is the data URI. *)
Theorem injectViewerIFrame_mounts_upper_case_data_uri `{UrlParser}
    (id heading : string) (class : option string)
    (p : Page) (dest : Node) :
  new_URL "DATA:text/html,hi" = Return (mkURL "") ->
  location_host p <> "" ->
  getElementById id p = (Return (Some dest), p) ->
  exists (iframe : Node) (p' : Page),
    injectViewerIFrame
      (mkViewerParams id heading "DATA:text/html,hi" class) p
    = (Return tt, p')
    /\ root p' = appendChildTo (nid dest) iframe (root p)
    /\ localName iframe = "iframe"
    /\ get_src iframe = "DATA:text/html,hi".
Proof.
  intros Hu Hhost Hdest.
  unfold getElementById in Hdest. injection Hdest as Hdest.
  set (params := mkViewerParams id heading "DATA:text/html,hi" class).
  assert (String.eqb (toLowerCase (host (mkURL "")))
                     (toLowerCase (location_host p)) = false) as Hne.
  { apply String.eqb_neq. cbn [host toLowerCase]. intros E.
    apply Hhost. apply toLowerCase_empty. symmetry. exact E. }
  exists (viewer_frame (next_nid p) params). eexists.
  split.
  { rewrite injectViewerIFrame_cases. cbn [fileUrl params].
    change (includes "data:" "DATA:text/html,hi") with false.
    cbn iota. rewrite Hu, Hne. cbn zeta.
    cbn [destinationId params]. rewrite Hdest. reflexivity. }
  cbn [root set_root].
  pose proof (viewer_frame_attributes (next_nid p) params)
    as (_ & Hname & _ & Hsrc & _).
  split; [reflexivity|]. split; [exact Hname | exact Hsrc].
Qed.

Lemma injectViewerIFrame_mounts_upper_case_data_uri_witness :
  @new_URL scheme_parser "DATA:text/html,hi" = Return (mkURL "")
  /\ location_host example_page <> ""
  /\ getElementById "viewer" example_page
     = (Return (Some (mkNode 3 "div" [("id", "viewer")] [] [])), example_page)
  /\ exists (iframe : Node) (p' : Page),
       @injectViewerIFrame scheme_parser
         (mkViewerParams "viewer" "A document" "DATA:text/html,hi" None)
         example_page
       = (Return tt, p')
       /\ root p'
          = appendChildTo 3 iframe (root example_page)
       /\ localName iframe = "iframe"
       /\ get_src iframe = "DATA:text/html,hi".
Proof.
  split; [reflexivity|]. split; [discriminate|]. split; [reflexivity|].
  apply (@injectViewerIFrame_mounts_upper_case_data_uri scheme_parser
           "viewer" "A document" None example_page
           (mkNode 3 "div" [("id", "viewer")] [] []));
    [reflexivity | discriminate | reflexivity].
Defined.

(** C4.  On a page whose node identities are distinct, a call whose
    [fileUrl] has no [data:] in it and parses to a host other than the
    page's, and whose [destinationId] is the ID of an element [dest],
    returns without an exception; afterwards [destinationId] still names
    that element, which has its former children followed by one new
    [iframe] with [src] the [fileUrl], [title] the [title] and, when a
    [className] was given, that [className]; and the document has exactly
    one node more. *)
Theorem injectViewerIFrame_appends_one_iframe `{UrlParser}
    (params : ViewerParams) (p : Page) (u : URL) (dest : Node) :
  wf p ->
  includes "data:" (fileUrl params) = false ->
  new_URL (fileUrl params) = Return u ->
  toLowerCase (host u) <> toLowerCase (location_host p) ->
  getElementById (destinationId params) p = (Return (Some dest), p) ->
  exists (iframe : Node) (p' : Page),
    injectViewerIFrame params p = (Return tt, p')
    /\ getElementById (destinationId params) p'
       = (Return (Some (with_child iframe dest)), p')
    /\ ~ In (nid iframe) (nids (root p))
    /\ localName iframe = "iframe"
    /\ get_src iframe = fileUrl params
    /\ get_title iframe = title params
    /\ (forall c, className params = Some c -> get_className iframe = c)
    /\ length (nodes (root p')) = S (length (nodes (root p))).
Proof.
  intros [Hnd Hlt] Hdata Hu Hhost Hdest.
  unfold getElementById in Hdest. injection Hdest as Hdest.
  pose proof (viewer_frame_attributes (next_nid p) params)
    as (Hnid & Hname & Hkids & Hsrc & Htitle & _ & _ & _ & Hid).
  set (iframe := viewer_frame (next_nid p) params) in *.
  exists iframe. eexists.
  split.
  { rewrite injectViewerIFrame_cases, Hdata, Hu.
    apply String.eqb_neq in Hhost. rewrite Hhost. cbn zeta.
    rewrite Hdest. reflexivity. }
  assert (In (nid dest) (nids (root p))) as Hin.
  { apply DomFacts.nodes_nid_in. apply find_some in Hdest. tauto. }
  split.
  { unfold getElementById, set_root. cbn [root]. f_equal. f_equal.
    apply DomFacts.find_appendChildTo;
      [intros; apply has_id_local | exact Hnd | exact Hdest]. }
  split.
  { rewrite Hnid. intros Hfresh.
    rewrite Forall_forall in Hlt. specialize (Hlt _ Hfresh). lia. }
  split; [exact Hname|]. split; [exact Hsrc|]. split; [exact Htitle|].
  split; [intros c Hc; apply viewer_frame_className; exact Hc|].
  unfold set_root. cbn [root]. fold iframe.
  rewrite DomFacts.appendChildTo_size.
  rewrite (proj1 (NoDup_count_occ' Nat.eq_dec _) Hnd _ Hin).
  rewrite (DomFacts.nodes_unfold iframe), Hkids. simpl. lia.
Qed.

Lemma injectViewerIFrame_appends_one_iframe_witness :
  wf example_page
  /\ exists (iframe : Node) (p' : Page),
       injectViewerIFrame
         (mkViewerParams "viewer" "A document"
                         "https://lit.example.org/lit.html" (Some "lit"))
         example_page
       = (Return tt, p')
       /\ getElementById "viewer" p'
          = (Return (Some (with_child iframe
                             (mkNode 3 "div" [("id", "viewer")] [] []))), p')
       /\ ~ In (nid iframe) (nids (root example_page))
       /\ localName iframe = "iframe"
       /\ get_src iframe = "https://lit.example.org/lit.html"
       /\ get_title iframe = "A document"
       /\ (forall c, Some "lit" = Some c -> get_className iframe = c)
       /\ length (nodes (root p')) = S (length (nodes (root example_page))).
Proof.
  assert (wf example_page) as Hwf.
  { split.
    - repeat (constructor; [simpl; intuition discriminate|]). constructor.
    - repeat constructor. }
  split; [exact Hwf|].
  apply (injectViewerIFrame_appends_one_iframe
           (mkViewerParams "viewer" "A document"
                           "https://lit.example.org/lit.html" (Some "lit"))
           example_page (mkURL "lit.example.org")
           (mkNode 3 "div" [("id", "viewer")] [] []));
    [exact Hwf | reflexivity | reflexivity | discriminate | reflexivity].
Defined.

(** A call that returns has passed both guards and found its destination;
    the page it leaves has the element it built under the destination. *)
Lemma injectViewerIFrame_returns `{UrlParser}
    (params : ViewerParams) (p p' : Page) :
  injectViewerIFrame params p = (Return tt, p') ->
  includes "data:" (fileUrl params) = false
  /\ (exists u, new_URL (fileUrl params) = Return u
                /\ toLowerCase (host u) <> toLowerCase (location_host p))
  /\ exists d,
       getElementById (destinationId params) p = (Return (Some d), p)
       /\ root p' = appendChildTo (nid d) (viewer_frame (next_nid p) params)
                                  (root p).
Proof.
  rewrite injectViewerIFrame_cases.
  destruct (includes "data:" (fileUrl params)); [discriminate|].
  destruct (new_URL (fileUrl params)) as [u|e]; [|discriminate].
  destruct (String.eqb_spec (toLowerCase (host u))
                            (toLowerCase (location_host p))) as [_|Hne];
    [discriminate|].
  cbn zeta. unfold getElementById.
  destruct (find (has_id (destinationId params)) (nodes (root p))) as [d|];
    [|discriminate].
  intros E. injection E as <-.
  split; [reflexivity|]. split; [exists u; split; [reflexivity | exact Hne]|].
  exists d. split; reflexivity.
Qed.

(** C8.  Take any two calls that return, with any parameters, on any pages
    and with any URL parser.  Each has appended under its destination an
    [iframe] whose [sandbox] is [SANDBOX] and whose [allow] is [ALLOW], so
    the two elements agree on both lists: no parameter reaches them. *)
Theorem sandbox_and_allow_are_fixed (parser1 parser2 : UrlParser)
    (params1 params2 : ViewerParams) (p1 p1' p2 p2' : Page) :
  @injectViewerIFrame parser1 params1 p1 = (Return tt, p1') ->
  @injectViewerIFrame parser2 params2 p2 = (Return tt, p2') ->
  exists d1 f1 d2 f2,
    getElementById (destinationId params1) p1 = (Return (Some d1), p1)
    /\ root p1' = appendChildTo (nid d1) f1 (root p1)
    /\ getElementById (destinationId params2) p2 = (Return (Some d2), p2)
    /\ root p2' = appendChildTo (nid d2) f2 (root p2)
    /\ localName f1 = "iframe" /\ localName f2 = "iframe"
    /\ get_sandbox f1 = SANDBOX /\ get_allow f1 = ALLOW
    /\ get_sandbox f1 = get_sandbox f2
    /\ get_allow f1 = get_allow f2.
Proof.
  intros H1 H2.
  apply injectViewerIFrame_returns in H1 as (_ & _ & d1 & Hd1 & Hr1).
  apply injectViewerIFrame_returns in H2 as (_ & _ & d2 & Hd2 & Hr2).
  pose proof (viewer_frame_attributes (next_nid p1) params1)
    as (_ & Hn1 & _ & _ & _ & Hs1 & _ & Ha1 & _).
  pose proof (viewer_frame_attributes (next_nid p2) params2)
    as (_ & Hn2 & _ & _ & _ & Hs2 & _ & Ha2 & _).
  exists d1, (viewer_frame (next_nid p1) params1),
         d2, (viewer_frame (next_nid p2) params2).
  repeat (split; [assumption|]).
  split; congruence.
Qed.

Lemma sandbox_and_allow_are_fixed_witness :
  let params1 := mkViewerParams "viewer" "A document"
                   "https://lit.example.org/lit.html" (Some "sandbox") in
  let params2 := mkViewerParams "other" "allow-top-navigation"
                   "https://cdn.example.net/allow?sandbox=none" None in
  let p1' := snd (injectViewerIFrame params1 example_page) in
  let p2' := snd (injectViewerIFrame params2 p1') in
  injectViewerIFrame params1 example_page = (Return tt, p1')
  /\ injectViewerIFrame params2 p1' = (Return tt, p2')
  /\ exists d1 f1 d2 f2,
       getElementById "viewer" example_page = (Return (Some d1), example_page)
       /\ root p1' = appendChildTo (nid d1) f1 (root example_page)
       /\ getElementById "other" p1' = (Return (Some d2), p1')
       /\ root p2' = appendChildTo (nid d2) f2 (root p1')
       /\ localName f1 = "iframe" /\ localName f2 = "iframe"
       /\ get_sandbox f1 = SANDBOX /\ get_allow f1 = ALLOW
       /\ get_sandbox f1 = get_sandbox f2
       /\ get_allow f1 = get_allow f2.
Proof.
  intros params1 params2 p1' p2'.
  split; [reflexivity|]. split; [reflexivity|].
  apply (sandbox_and_allow_are_fixed simple_parser simple_parser
           params1 params2 example_page p1' p1' p2');
    reflexivity.
Defined.

(** ** [downloadFile] *)

Lemma find_map_local {A} (f : A -> bool) (g : A -> A) (l : list A) :
  (forall x, f (g x) = f x) ->
  find f (map g l) = option_map g (find f l).
Proof.
  intros Hfg. induction l as [|x l IH]; simpl; [reflexivity|].
  rewrite Hfg. destruct (f x); [reflexivity | exact IH].
Qed.

Lemma appendChildTo_local (t : nat) (c n : Node) :
  nid (appendChildTo t c n) = nid n
  /\ localName (appendChildTo t c n) = localName n.
Proof. destruct n; split; reflexivity. Qed.

(** The body element is still the body element, with the same identity,
    after a child was appended anywhere. *)
Lemma body_of_appendChildTo (t : nat) (c r body : Node) :
  is_body c = false ->
  body_of r = Some body ->
  exists body', body_of (appendChildTo t c r) = Some body'
                /\ nid body' = nid body.
Proof.
  unfold body_of. intros Hc.
  destruct (appendChildTo_local t c r) as [_ ->].
  destruct (String.eqb (localName r) "html"); [|discriminate].
  intros Hbody. destruct r as [i name attrs sty cs]. cbn [childNodes] in *.
  assert (find is_body (map (appendChildTo t c) cs)
          = Some (appendChildTo t c body)) as Hmap.
  { rewrite find_map_local, Hbody; [reflexivity|].
    intros x. unfold is_body.
    destruct (appendChildTo_local t c x) as [_ ->]. reflexivity. }
  exists (appendChildTo t c body).
  split; [|apply appendChildTo_local].
  cbn [appendChildTo childNodes nid].
  destruct (i =? t); [|exact Hmap].
  rewrite DomFacts.find_app, Hmap. reflexivity.
Qed.

Lemma body_of_in_tree (r body : Node) :
  body_of r = Some body -> In (nid body) (nids r).
Proof.
  unfold body_of. destruct (String.eqb (localName r) "html"); [|discriminate].
  intros Hbody. apply find_some in Hbody as [Hin _].
  rewrite DomFacts.nids_unfold. right.
  eapply DomFacts.child_nids_in; [exact Hin|].
  rewrite DomFacts.nids_unfold. left. reflexivity.
Qed.

(** On a page that has a body and whose node identities were all handed
    out by the page, [downloadFile] returns; the link it built was clicked
    while it was in the document, and the document is as it was before. *)
Lemma downloadFile_returns (params : DownloadParams) (p : Page)
    (body : Node) (b64 : string) :
  Forall (fun i => i < next_nid p) (nids (root p)) ->
  document_body p = (Return (Some body), p) ->
  uint8arrayToString (data params) "base64" = Return b64 ->
  downloadFile params p
  = (Return tt,
     mkPage (root p) (S (next_nid p)) (location_host p)
            (clicks p
             ++ [mkClick (download_link (next_nid p) params b64) true])).
Proof.
  intros Hlt Hbody Hb64.
  unfold document_body in Hbody. injection Hbody as Hbody.
  set (link := download_link (next_nid p) params b64).
  assert (nids link = [next_nid p]) as Hlink by reflexivity.
  assert (nid link = next_nid p) as Hlid by reflexivity.
  assert (is_body link = false) as Hnb by reflexivity.
  pose proof (body_of_in_tree _ _ Hbody) as Hin.
  assert (nid body < next_nid p) as Hblt
      by (rewrite Forall_forall in Hlt; apply Hlt; exact Hin).
  assert (~ In (nid link) (nids (root p))) as Hfresh.
  { rewrite Hlid. intros Hf. rewrite Forall_forall in Hlt.
    specialize (Hlt _ Hf). lia. }
  assert (~ In (nid body) (nids link)) as Hout.
  { rewrite Hlink. simpl. lia. }
  set (r2 := appendChildTo (nid body) link (root p)).
  destruct (DomFacts.appendChildTo_parent (nid body) link (root p) Hin)
    as (x & Hx & Hxid & Hxc). fold r2 in Hx.
  assert (isConnected link
            (mkPage r2 (S (next_nid p)) (location_host p) (clicks p)) = true)
    as Hconn.
  { unfold isConnected. cbn [root]. apply existsb_exists. exists link.
    split; [|apply Nat.eqb_refl].
    eapply DomFacts.child_in_nodes; eassumption. }
  destruct (body_of_appendChildTo (nid body) link (root p) body Hnb Hbody)
    as (body' & Hbody' & Hid'). fold r2 in Hbody'.
  assert (has_child (nid body') (nid link) r2 = true) as Hchild.
  { unfold has_child. apply existsb_exists. exists x. split; [exact Hx|].
    rewrite Hid', Hxid, Nat.eqb_refl. cbn [andb].
    apply existsb_exists. exists link. split; [exact Hxc | apply Nat.eqb_refl]. }
  unfold downloadFile.
  unfold bind at 1. unfold createElement.
  unfold bind at 1. unfold lift. rewrite Hb64.
  fold (download_link (next_nid p) params b64). fold link.
  unfold bind at 1. unfold document_body at 1. cbn [root]. rewrite Hbody.
  unfold bind at 1. unfold appendChild, set_root. cbn [root next_nid location_host clicks].
  fold r2.
  unfold bind at 1. unfold click. rewrite Hconn.
  cbn [root next_nid location_host clicks].
  unfold bind at 1. unfold document_body. cbn [root]. rewrite Hbody'.
  unfold removeChild, set_root. cbn [root next_nid location_host clicks].
  rewrite Hchild, Hid'. unfold r2.
  rewrite DomFacts.removeChildFrom_appendChildTo by assumption.
  reflexivity.
Qed.

(** C5.  On a page that has a body and whose node identities were all
    handed out by the page, [downloadFile] with file name [a.txt], the bytes
    of [hi] and type [text/plain] returns after one click on a link that was
    in the document then, with [href] the text [data:text/plain;base64,]
    followed by [aGk], which is [hi] in the [base64] scheme of the codec, and
    with [download] the text [a.txt]; when the call returns the document is
    as before and the link is not in it. *)
Theorem downloadFile_a_txt (p : Page) (body : Node) :
  Forall (fun i => i < next_nid p) (nids (root p)) ->
  document_body p = (Return (Some body), p) ->
  exists (link : Node) (p' : Page),
    downloadFile (mkDownloadParams "a.txt" [x68; x69] "text/plain") p
    = (Return tt, p')
    /\ clicks p' = clicks p ++ [mkClick link true]
    /\ localName link = "a"
    /\ getAttribute "href" link = Some "data:text/plain;base64,aGk"
    /\ uint8arrayFromString "aGk" "base64" = Return [x68; x69]
    /\ getAttribute "download" link = Some "a.txt"
    /\ root p' = root p
    /\ ~ In (nid link) (nids (root p')).
Proof.
  intros Hlt Hbody.
  set (params := mkDownloadParams "a.txt" [x68; x69] "text/plain").
  exists (download_link (next_nid p) params "aGk"). eexists.
  split; [apply (downloadFile_returns params p body "aGk" Hlt Hbody);
          reflexivity|].
  cbn [clicks root].
  repeat (split; [reflexivity|]).
  intros Hin. rewrite Forall_forall in Hlt. specialize (Hlt _ Hin).
  simpl in Hlt. lia.
Qed.

Lemma downloadFile_a_txt_witness :
  Forall (fun i => i < next_nid example_page) (nids (root example_page))
  /\ document_body example_page = (Return (Some example_body), example_page)
  /\ exists (link : Node) (p' : Page),
       downloadFile (mkDownloadParams "a.txt" [x68; x69] "text/plain")
                    example_page
       = (Return tt, p')
       /\ clicks p' = clicks example_page ++ [mkClick link true]
       /\ localName link = "a"
       /\ getAttribute "href" link = Some "data:text/plain;base64,aGk"
       /\ uint8arrayFromString "aGk" "base64" = Return [x68; x69]
       /\ getAttribute "download" link = Some "a.txt"
       /\ root p' = root example_page
       /\ ~ In (nid link) (nids (root p')).
Proof.
  assert (Forall (fun i => i < next_nid example_page)
                 (nids (root example_page))) as Hlt
      by (repeat constructor).
  split; [exact Hlt|]. split; [reflexivity|].
  apply (downloadFile_a_txt example_page example_body Hlt). reflexivity.
Defined.

(** * Further properties *)

(** ** More on the tree of elements *)

Module TreeFacts.
Import DomFacts.

Section Find.
Variable f : Node -> bool.
Hypothesis f_local : forall i name attrs sty cs cs',
    f (mkNode i name attrs sty cs) = f (mkNode i name attrs sty cs').
Variables (t : nat) (c : Node).
Hypothesis f_child : find f (nodes c) = None.

Lemma find_children_appendChildTo (cs : list Node) :
  Forall (fun n => find f (nodes (appendChildTo t c n))
                   = option_map (appendChildTo t c) (find f (nodes n))) cs ->
  find f (flat_map nodes (map (appendChildTo t c) cs))
  = option_map (appendChildTo t c) (find f (flat_map nodes cs)).
Proof.
  induction 1 as [|ci cs Hci _ IH]; [reflexivity|].
  cbn [map flat_map]. rewrite !find_app, Hci.
  destruct (find f (nodes ci)); [reflexivity | exact IH].
Qed.

(** A test that does not look at the children and that the new child fails
    finds, after the child was appended, the element it found before. *)
Lemma find_after_appendChildTo (n : Node) :
  find f (nodes (appendChildTo t c n))
  = option_map (appendChildTo t c) (find f (nodes n)).
Proof.
  induction n as [i name attrs sty cs IH] using Node_tree_ind.
  pose proof (find_children_appendChildTo cs IH) as Hcs.
  rewrite (nodes_unfold (mkNode i name attrs sty cs)).
  cbn [appendChildTo nid localName attributes style childNodes].
  rewrite nodes_unfold. cbn [find childNodes].
  rewrite (f_local i name attrs sty _ cs).
  destruct (f (mkNode i name attrs sty cs)); [reflexivity|].
  destruct (i =? t); [|exact Hcs].
  rewrite flat_map_app, find_app, Hcs.
  destruct (find f (flat_map nodes cs)); [reflexivity|].
  cbn [flat_map option_map]. rewrite app_nil_r. exact f_child.
Qed.
End Find.

Lemma own_appendChildTo (t : nat) (c n : Node) :
  own (appendChildTo t c n) = own n.
Proof. destruct n; reflexivity. Qed.

Lemma copies_add (j k : nat) (l : list nat) :
  copies (j + k) l = copies j l ++ copies k l.
Proof.
  induction j as [|j IH]; simpl; [reflexivity|].
  rewrite IH, app_assoc. reflexivity.
Qed.

Lemma Permutation_app_middle {A} (a b c d : list A) :
  Permutation ((a ++ b) ++ (c ++ d)) ((a ++ c) ++ (b ++ d)).
Proof.
  rewrite <- !app_assoc. apply Permutation_app_head.
  rewrite !app_assoc. apply Permutation_app_tail.
  apply Permutation_app_comm.
Qed.

(** The identities after appending: those of before, and those of the child
    once for each node called [t]. *)
Lemma nids_appendChildTo (t : nat) (c n : Node) :
  Permutation (nids (appendChildTo t c n))
              (nids n ++ copies (count_occ Nat.eq_dec (nids n) t) (nids c)).
Proof.
  induction n as [i name attrs sty cs IH] using Node_tree_ind.
  assert (Permutation
            (flat_map nids (map (appendChildTo t c) cs))
            (flat_map nids cs
             ++ copies (count_occ Nat.eq_dec (flat_map nids cs) t) (nids c)))
    as Hcs.
  { induction IH as [|ci cs Hci _ IHcs]; [constructor|].
    cbn [map flat_map]. rewrite count_occ_app, copies_add.
    eapply Permutation_trans; [|apply Permutation_app_middle].
    apply Permutation_app; assumption. }
  rewrite (nids_unfold (appendChildTo t c (mkNode i name attrs sty cs))).
  rewrite nids_node.
  cbn [appendChildTo nid childNodes count_occ].
  destruct (Nat.eq_dec i t) as [->|Hne].
  - rewrite Nat.eqb_refl, flat_map_app. cbn [flat_map copies].
    rewrite app_nil_r. cbn [app]. apply perm_skip.
    eapply Permutation_trans; [apply Permutation_app_tail; exact Hcs|].
    rewrite <- !app_assoc. apply Permutation_app_head.
    apply Permutation_app_comm.
  - destruct (Nat.eqb_spec i t) as [E|_]; [contradiction|].
    cbn [app]. apply perm_skip. exact Hcs.
Qed.

Lemma count_occ_absent (l : list nat) (x : nat) :
  ~ In x l -> count_occ Nat.eq_dec l x = 0.
Proof. apply count_occ_not_In. Qed.

(** Identities stay distinct when a new childless element is appended. *)
Lemma NoDup_appendChildTo (t : nat) (c n : Node) :
  NoDup (nids n) -> ~ In (nid c) (nids n) -> childNodes c = [] ->
  NoDup (nids (appendChildTo t c n)).
Proof.
  intros Hnd Hfresh Hleaf.
  assert (nids c = [nid c]) as Hc
      by (rewrite nids_unfold, Hleaf; reflexivity).
  eapply Permutation_NoDup;
    [apply Permutation_sym; apply nids_appendChildTo|].
  destruct (in_dec Nat.eq_dec t (nids n)) as [Hin|Hout].
  - rewrite (proj1 (NoDup_count_occ' Nat.eq_dec _) Hnd _ Hin).
    cbn [copies]. rewrite app_nil_r, Hc.
    apply NoDup_app; [exact Hnd | repeat constructor; simpl; tauto |].
    intros a Ha [<-|[]]. exact (Hfresh Ha).
  - rewrite count_occ_absent by exact Hout.
    cbn [copies]. rewrite app_nil_r. exact Hnd.
Qed.

Lemma In_nids_appendChildTo (t x : nat) (c n : Node) :
  In x (nids (appendChildTo t c n)) -> In x (nids n) \/ In x (nids c).
Proof.
  intros Hin.
  apply (Permutation_in _ (nids_appendChildTo t c n)) in Hin.
  apply in_app_or in Hin as [Hin|Hin]; [left; exact Hin|].
  right. induction (count_occ Nat.eq_dec (nids n) t) as [|k IH];
    simpl in Hin; [contradiction|].
  apply in_app_or in Hin as [Hin|Hin]; [exact Hin | exact (IH Hin)].
Qed.

End TreeFacts.

(** ** More on [injectViewerIFrame] *)

(** The page that a call that returns leaves. *)
Lemma injectViewerIFrame_returns_page `{UrlParser}
    (params : ViewerParams) (p p' : Page) :
  injectViewerIFrame params p = (Return tt, p') ->
  exists d,
    find (has_id (destinationId params)) (nodes (root p)) = Some d
    /\ p' = mkPage (appendChildTo (nid d) (viewer_frame (next_nid p) params)
                                  (root p))
                   (S (next_nid p)) (location_host p) (clicks p).
Proof.
  rewrite injectViewerIFrame_cases.
  destruct (includes "data:" (fileUrl params)); [discriminate|].
  destruct (new_URL (fileUrl params)) as [u|e]; [|discriminate].
  destruct (String.eqb (toLowerCase (host u)) (toLowerCase (location_host p)));
    [discriminate|].
  cbn zeta.
  destruct (find (has_id (destinationId params)) (nodes (root p))) as [d|];
    [|discriminate].
  intros E. injection E as <-. exists d. split; reflexivity.
Qed.

(** X1.  Whenever a call throws, whatever the exception, the document, the
    clicks and the location of the page are as they were: nothing is mounted
    by a call that fails. *)
Theorem injectViewerIFrame_throw_keeps_document `{UrlParser}
    (params : ViewerParams) (p p' : Page) (e : exn) :
  injectViewerIFrame params p = (Throw e, p') ->
  root p' = root p
  /\ clicks p' = clicks p
  /\ location_host p' = location_host p.
Proof.
  rewrite injectViewerIFrame_cases.
  destruct (includes "data:" (fileUrl params));
    [intros E; injection E as _ <-; repeat split|].
  destruct (new_URL (fileUrl params)) as [u|e'];
    [|intros E; injection E as _ <-; repeat split].
  destruct (String.eqb (toLowerCase (host u)) (toLowerCase (location_host p)));
    [intros E; injection E as _ <-; repeat split|].
  cbn zeta.
  destruct (find (has_id (destinationId params)) (nodes (root p)));
    [discriminate|].
  intros E. injection E as _ <-. repeat split.
Qed.

Lemma injectViewerIFrame_throw_keeps_document_witness :
  let params := mkViewerParams "nowhere" "A document"
                  "https://lit.example.org/lit.html" None in
  let p' := mkPage (root example_page) 6 "example.com" [] in
  injectViewerIFrame params example_page
  = (Throw (TypeError "Cannot read properties of null"), p')
  /\ root p' = root example_page
  /\ clicks p' = clicks example_page
  /\ location_host p' = location_host example_page.
Proof.
  intros params p'. split; [reflexivity|].
  apply (injectViewerIFrame_throw_keeps_document params example_page p'
           (TypeError "Cannot read properties of null")).
  reflexivity.
Defined.

(** X2.  A call returns exactly when [fileUrl] has no [data:] in it, parses
    to a host that differs from the page's up to letter case, and
    [destinationId] names an element; in every other case it throws. *)
Theorem injectViewerIFrame_returns_exactly_when `{UrlParser}
    (params : ViewerParams) (p : Page) :
  (exists p', injectViewerIFrame params p = (Return tt, p'))
  <->
  (includes "data:" (fileUrl params) = false
   /\ (exists u, new_URL (fileUrl params) = Return u
                 /\ toLowerCase (host u) <> toLowerCase (location_host p))
   /\ exists d, getElementById (destinationId params) p = (Return (Some d), p)).
Proof.
  split.
  - intros [p' Hret].
    apply injectViewerIFrame_returns in Hret as (Hdata & Hu & d & Hd & _).
    split; [exact Hdata|]. split; [exact Hu|]. exists d. exact Hd.
  - intros (Hdata & (u & Hu & Hne) & d & Hd).
    unfold getElementById in Hd. injection Hd as Hd.
    rewrite injectViewerIFrame_cases, Hdata, Hu.
    apply String.eqb_neq in Hne. rewrite Hne. cbn zeta. rewrite Hd.
    eexists. reflexivity.
Qed.

(** X3.  When [fileUrl] has no [data:] in it and the URL constructor throws,
    that exception is what the call throws, and the page is untouched. *)
Theorem injectViewerIFrame_url_error_escapes `{UrlParser}
    (params : ViewerParams) (p : Page) (e : exn) :
  includes "data:" (fileUrl params) = false ->
  new_URL (fileUrl params) = Throw e ->
  injectViewerIFrame params p = (Throw e, p).
Proof.
  intros Hdata Hu. rewrite injectViewerIFrame_cases, Hdata, Hu. reflexivity.
Qed.

Lemma injectViewerIFrame_url_error_escapes_witness :
  let params := mkViewerParams "viewer" "A document" "lit.html" None in
  includes "data:" (fileUrl params) = false
  /\ new_URL (fileUrl params) = Throw (TypeError "Invalid URL")
  /\ injectViewerIFrame params example_page
     = (Throw (TypeError "Invalid URL"), example_page).
Proof.
  intros params. split; [reflexivity|]. split; [reflexivity|].
  apply (injectViewerIFrame_url_error_escapes params example_page
           (TypeError "Invalid URL"));
    reflexivity.
Defined.

(** X4.  When both guards pass but [destinationId] names no element, the
    call throws a [TypeError]; the element it had created is not in the
    document, which is as it was. *)
Theorem injectViewerIFrame_missing_destination `{UrlParser}
    (params : ViewerParams) (p : Page) (u : URL) :
  includes "data:" (fileUrl params) = false ->
  new_URL (fileUrl params) = Return u ->
  toLowerCase (host u) <> toLowerCase (location_host p) ->
  getElementById (destinationId params) p = (Return None, p) ->
  exists p',
    injectViewerIFrame params p
    = (Throw (TypeError "Cannot read properties of null"), p')
    /\ root p' = root p
    /\ next_nid p' = S (next_nid p).
Proof.
  intros Hdata Hu Hne Hd.
  unfold getElementById in Hd. injection Hd as Hd.
  rewrite injectViewerIFrame_cases, Hdata, Hu.
  apply String.eqb_neq in Hne. rewrite Hne. cbn zeta. rewrite Hd.
  eexists. split; [reflexivity|]. split; reflexivity.
Qed.

Lemma injectViewerIFrame_missing_destination_witness :
  let params := mkViewerParams "nowhere" "A document"
                  "https://lit.example.org/lit.html" (Some "lit") in
  includes "data:" (fileUrl params) = false
  /\ new_URL (fileUrl params) = Return (mkURL "lit.example.org")
  /\ toLowerCase "lit.example.org" <> toLowerCase (location_host example_page)
  /\ getElementById "nowhere" example_page = (Return None, example_page)
  /\ exists p',
       injectViewerIFrame params example_page
       = (Throw (TypeError "Cannot read properties of null"), p')
       /\ root p' = root example_page
       /\ next_nid p' = S (next_nid example_page).
Proof.
  intros params.
  split; [reflexivity|]. split; [reflexivity|]. split; [discriminate|].
  split; [reflexivity|].
  apply (injectViewerIFrame_missing_destination params example_page
           (mkURL "lit.example.org"));
    [reflexivity | reflexivity | discriminate | reflexivity].
Defined.

(** X5.  The element that a returning call has appended under its
    destination has exactly these attributes, in this order: [src], [title],
    [sandbox], [loading] with value [lazy], [allow], and then [class] when a
    non-empty [className] was given; without a [className], or with the
    empty one, it has no [class] attribute.  It has no inline style and no
    children. *)
Theorem injectViewerIFrame_frame_attributes `{UrlParser}
    (params : ViewerParams) (p p' : Page) :
  injectViewerIFrame params p = (Return tt, p') ->
  exists d f,
    getElementById (destinationId params) p = (Return (Some d), p)
    /\ root p' = appendChildTo (nid d) f (root p)
    /\ attributes f
       = [ ("src", fileUrl params); ("title", title params);
           ("sandbox", SANDBOX); ("loading", "lazy"); ("allow", ALLOW) ]
         ++ match className params with
            | Some c => if String.eqb c "" then [] else [("class", c)]
            | None => []
            end
    /\ style f = []
    /\ childNodes f = [].
Proof.
  intros Hret.
  apply injectViewerIFrame_returns in Hret as (_ & _ & d & Hd & Hroot).
  exists d, (viewer_frame (next_nid p) params).
  split; [exact Hd|]. split; [exact Hroot|].
  unfold viewer_frame. destruct (className params) as [c|]; simpl.
  - destruct (String.eqb c ""); repeat split; reflexivity.
  - repeat split; reflexivity.
Qed.

Lemma injectViewerIFrame_frame_attributes_witness :
  let params := mkViewerParams "viewer" "A document"
                  "https://lit.example.org/lit.html" (Some "") in
  let p' := snd (injectViewerIFrame params example_page) in
  injectViewerIFrame params example_page = (Return tt, p')
  /\ exists d f,
       getElementById "viewer" example_page = (Return (Some d), example_page)
       /\ root p' = appendChildTo (nid d) f (root example_page)
       /\ attributes f
          = [ ("src", "https://lit.example.org/lit.html");
              ("title", "A document");
              ("sandbox", SANDBOX); ("loading", "lazy"); ("allow", ALLOW) ]
            ++ []
       /\ style f = []
       /\ childNodes f = [].
Proof.
  intros params p'. split; [reflexivity|].
  apply (injectViewerIFrame_frame_attributes params example_page p').
  reflexivity.
Defined.

(** X6.  A call that returns does not disturb the elements that were there:
    every ID names afterwards the element it named before, with the same
    identity, name, attributes and style, and an ID that named nothing still
    names nothing. *)
Theorem injectViewerIFrame_keeps_other_elements `{UrlParser}
    (params : ViewerParams) (p p' : Page) (id : string) (e : option Node) :
  injectViewerIFrame params p = (Return tt, p') ->
  getElementById id p = (Return e, p) ->
  exists e',
    getElementById id p' = (Return e', p')
    /\ option_map own e' = option_map own e.
Proof.
  intros Hret He.
  apply injectViewerIFrame_returns_page in Hret as (d & _ & ->).
  unfold getElementById in He. injection He as He.
  unfold getElementById. cbn [root].
  eexists. split; [reflexivity|].
  rewrite TreeFacts.find_after_appendChildTo.
  - rewrite He. destruct e as [x|]; [|reflexivity].
    cbn [option_map]. rewrite TreeFacts.own_appendChildTo. reflexivity.
  - intros. apply has_id_local.
  - pose proof (viewer_frame_attributes (next_nid p) params)
      as (_ & _ & Hkids & _ & _ & _ & _ & _ & Hid).
    rewrite DomFacts.nodes_unfold, Hkids. cbn [flat_map find].
    unfold has_id. rewrite Hid. reflexivity.
Qed.

Lemma injectViewerIFrame_keeps_other_elements_witness :
  let params := mkViewerParams "viewer" "A document"
                  "https://lit.example.org/lit.html" (Some "lit") in
  let p' := snd (injectViewerIFrame params example_page) in
  let other := mkNode 4 "div" [("id", "other")] [] [] in
  injectViewerIFrame params example_page = (Return tt, p')
  /\ getElementById "other" example_page = (Return (Some other), example_page)
  /\ exists e',
       getElementById "other" p' = (Return e', p')
       /\ option_map own e' = option_map own (Some other).
Proof.
  intros params p' other.
  split; [reflexivity|]. split; [reflexivity|].
  apply (injectViewerIFrame_keeps_other_elements params example_page p'
           "other" (Some other));
    reflexivity.
Defined.

(** X7.  Whatever a call does on a page whose node identities are
    distinct, they are still distinct afterwards; and when the call returns,
    the element it has appended under its destination is an [iframe] that
    was not in the document before, is in the document now, and the
    document has exactly one node more. *)
Theorem injectViewerIFrame_keeps_identities_distinct `{UrlParser}
    (params : ViewerParams) (p p' : Page) (o : outcome unit) :
  wf p ->
  injectViewerIFrame params p = (o, p') ->
  wf p'
  /\ (o = Return tt ->
      exists d f,
        getElementById (destinationId params) p = (Return (Some d), p)
        /\ root p' = appendChildTo (nid d) f (root p)
        /\ localName f = "iframe"
        /\ ~ In (nid f) (nids (root p))
        /\ In f (nodes (root p'))
        /\ length (nodes (root p')) = S (length (nodes (root p)))).
Proof.
  intros [Hnd Hlt]. rewrite injectViewerIFrame_cases.
  assert (wf (mkPage (root p) (S (next_nid p)) (location_host p) (clicks p)))
    as Hwf1.
  { split; [exact Hnd|]. cbn [root next_nid].
    eapply Forall_impl; [|exact Hlt]. intros a Ha. simpl in Ha. lia. }
  destruct (includes "data:" (fileUrl params));
    [intros E; injection E as <- <-;
     split; [split; assumption | discriminate]|].
  destruct (new_URL (fileUrl params)) as [u|e];
    [|intros E; injection E as <- <-;
      split; [split; assumption | discriminate]].
  destruct (String.eqb (toLowerCase (host u)) (toLowerCase (location_host p)));
    [intros E; injection E as <- <-;
     split; [split; assumption | discriminate]|].
  cbn zeta.
  destruct (find (has_id (destinationId params)) (nodes (root p)))
    as [d|] eqn:Hd;
    [|intros E; injection E as <- <-; split; [exact Hwf1 | discriminate]].
  intros E. injection E as _ <-.
  pose proof (viewer_frame_attributes (next_nid p) params)
    as (Hnid & Hname & Hkids & _).
  set (f := viewer_frame (next_nid p) params) in *.
  assert (~ In (nid f) (nids (root p))) as Hfresh.
  { rewrite Hnid. intros Hin. rewrite Forall_forall in Hlt.
    specialize (Hlt _ Hin). lia. }
  assert (In (nid d) (nids (root p))) as Hin.
  { apply DomFacts.nodes_nid_in. apply find_some in Hd. tauto. }
  unfold set_root. cbn [root next_nid]. split.
  - split; cbn [root next_nid].
    + apply TreeFacts.NoDup_appendChildTo; assumption.
    + apply Forall_forall. intros x Hx.
      apply TreeFacts.In_nids_appendChildTo in Hx as [Hx|Hx].
      * rewrite Forall_forall in Hlt. specialize (Hlt _ Hx). lia.
      * rewrite DomFacts.nids_unfold, Hkids, Hnid in Hx.
        simpl in Hx. destruct Hx as [<-|[]]. lia.
  - intros _. exists d, f.
    split; [unfold getElementById; rewrite Hd; reflexivity|].
    split; [reflexivity|]. split; [exact Hname|]. split; [exact Hfresh|].
    split.
    + destruct (DomFacts.appendChildTo_parent (nid d) f (root p) Hin)
        as (x & Hx & _ & Hxc).
      eapply DomFacts.child_in_nodes; eassumption.
    + rewrite DomFacts.appendChildTo_size.
      rewrite (proj1 (NoDup_count_occ' Nat.eq_dec _) Hnd _ Hin).
      rewrite (DomFacts.nodes_unfold f), Hkids. simpl. lia.
Qed.

Lemma example_page_wf : wf example_page.
Proof.
  split.
  - repeat (constructor; [simpl; intuition discriminate|]). constructor.
  - repeat constructor.
Defined.

Lemma injectViewerIFrame_keeps_identities_distinct_witness :
  let params := mkViewerParams "viewer" "A document"
                  "https://lit.example.org/lit.html" (Some "lit") in
  let p' := snd (injectViewerIFrame params example_page) in
  wf example_page
  /\ injectViewerIFrame params example_page = (Return tt, p')
  /\ wf p'
  /\ (Return tt = Return tt ->
      exists d f,
        getElementById "viewer" example_page
        = (Return (Some d), example_page)
        /\ root p' = appendChildTo (nid d) f (root example_page)
        /\ localName f = "iframe"
        /\ ~ In (nid f) (nids (root example_page))
        /\ In f (nodes (root p'))
        /\ length (nodes (root p'))
           = S (length (nodes (root example_page)))).
Proof.
  intros params p'.
  split; [exact example_page_wf|]. split; [reflexivity|].
  apply (injectViewerIFrame_keeps_identities_distinct params example_page p'
           (Return tt) example_page_wf).
  reflexivity.
Defined.

(** X8.  Two calls that return, one after the other, with the same
    [destinationId]: the element with that ID ends with its former children
    followed by the first call's element and then the second call's, two
    different elements, each with the [src] of its call. *)
Theorem injectViewerIFrame_twice_same_destination `{UrlParser}
    (params1 params2 : ViewerParams) (p p1 p2 : Page) :
  wf p ->
  destinationId params2 = destinationId params1 ->
  injectViewerIFrame params1 p = (Return tt, p1) ->
  injectViewerIFrame params2 p1 = (Return tt, p2) ->
  exists dest f1 f2,
    getElementById (destinationId params1) p = (Return (Some dest), p)
    /\ getElementById (destinationId params1) p2
       = (Return (Some (with_child f2 (with_child f1 dest))), p2)
    /\ get_src f1 = fileUrl params1
    /\ get_src f2 = fileUrl params2
    /\ nid f1 <> nid f2.
Proof.
  intros [Hnd Hlt] Hid H1 H2.
  apply injectViewerIFrame_returns_page in H1 as (d1 & Hd1 & ->).
  apply injectViewerIFrame_returns_page in H2 as (d2 & Hd2 & ->).
  cbn [root next_nid location_host clicks] in *.
  set (f1 := viewer_frame (next_nid p) params1) in *.
  set (f2 := viewer_frame (S (next_nid p)) params2) in *.
  pose proof (viewer_frame_attributes (next_nid p) params1)
    as (Hn1 & _ & Hk1 & Hs1 & _). fold f1 in Hn1, Hk1, Hs1.
  pose proof (viewer_frame_attributes (S (next_nid p)) params2)
    as (Hn2 & _ & _ & Hs2 & _). fold f2 in Hn2, Hs2.
  assert (find (has_id (destinationId params1))
               (nodes (appendChildTo (nid d1) f1 (root p)))
          = Some (with_child f1 d1)) as Hfound1.
  { apply DomFacts.find_appendChildTo;
      [intros; apply has_id_local | exact Hnd | exact Hd1]. }
  rewrite Hid, Hfound1 in Hd2. injection Hd2 as <-.
  assert (NoDup (nids (appendChildTo (nid d1) f1 (root p)))) as Hnd1.
  { apply TreeFacts.NoDup_appendChildTo; [exact Hnd | | exact Hk1].
    rewrite Hn1. intros Hin. rewrite Forall_forall in Hlt.
    specialize (Hlt _ Hin). lia. }
  exists d1, f1, f2.
  split; [unfold getElementById; rewrite Hd1; reflexivity|].
  split.
  { unfold getElementById. cbn [root]. f_equal. f_equal.
    apply (DomFacts.find_appendChildTo (has_id (destinationId params1))
             (has_id_local (destinationId params1)) f2 (with_child f1 d1)
             _ Hnd1 Hfound1). }
  split; [exact Hs1|]. split; [exact Hs2|].
  rewrite Hn1, Hn2. lia.
Qed.

Lemma injectViewerIFrame_twice_same_destination_witness :
  let params1 := mkViewerParams "viewer" "First"
                   "https://lit.example.org/one.html" None in
  let params2 := mkViewerParams "viewer" "Second"
                   "https://lit.example.org/two.html" None in
  let p1 := snd (injectViewerIFrame params1 example_page) in
  let p2 := snd (injectViewerIFrame params2 p1) in
  wf example_page
  /\ destinationId params2 = destinationId params1
  /\ injectViewerIFrame params1 example_page = (Return tt, p1)
  /\ injectViewerIFrame params2 p1 = (Return tt, p2)
  /\ exists dest f1 f2,
       getElementById "viewer" example_page
       = (Return (Some dest), example_page)
       /\ getElementById "viewer" p2
          = (Return (Some (with_child f2 (with_child f1 dest))), p2)
       /\ get_src f1 = "https://lit.example.org/one.html"
       /\ get_src f2 = "https://lit.example.org/two.html"
       /\ nid f1 <> nid f2.
Proof.
  intros params1 params2 p1 p2.
  split; [exact example_page_wf|]. split; [reflexivity|].
  split; [reflexivity|]. split; [reflexivity|].
  apply (injectViewerIFrame_twice_same_destination params1 params2
           example_page p1 p2 example_page_wf);
    reflexivity.
Defined.

(** ** More on [downloadFile] *)

Lemma base64_text_of (bytes : list byte) :
  exists b64, uint8arrayToString bytes "base64" = Return b64
              /\ uint8arrayFromString b64 "base64" = Return bytes.
Proof. exact (fromString_toString bytes "base64" eq_refl). Qed.

(** X9.  On a page that has a body and whose node identities were all
    handed out by the page, [downloadFile] returns for every file name, data
    and type.  It has clicked, once, an [a] element that was in the document
    then, hidden with [display: none], with [download] the file name and
    [href] the text [data:], the type, [;base64,] and the [base64] text of
    the data as they come; at return the document is as before and the
    element is not in it. *)
Theorem downloadFile_clicks_and_restores
    (params : DownloadParams) (p : Page) (body : Node) :
  Forall (fun i => i < next_nid p) (nids (root p)) ->
  document_body p = (Return (Some body), p) ->
  exists (link : Node) (b64 : string) (p' : Page),
    downloadFile params p = (Return tt, p')
    /\ clicks p' = clicks p ++ [mkClick link true]
    /\ root p' = root p
    /\ ~ In (nid link) (nids (root p'))
    /\ localName link = "a"
    /\ attributes link
       = [ ("href", ("data:" ++ mimetype params ++ ";base64," ++ b64)%string);
           ("download", filename params) ]
    /\ style link = [("display", "none")]
    /\ uint8arrayToString (data params) "base64" = Return b64
    /\ uint8arrayFromString b64 "base64" = Return (data params).
Proof.
  intros Hlt Hbody.
  destruct (base64_text_of (data params)) as (b64 & Henc & Hdec).
  exists (download_link (next_nid p) params b64), b64. eexists.
  split; [apply (downloadFile_returns params p body b64 Hlt Hbody Henc)|].
  cbn [clicks root].
  split; [reflexivity|]. split; [reflexivity|].
  split.
  { intros Hin. rewrite Forall_forall in Hlt. specialize (Hlt _ Hin).
    simpl in Hlt. lia. }
  split; [reflexivity|]. split; [reflexivity|]. split; [reflexivity|].
  split; assumption.
Qed.

Lemma example_page_identities :
  Forall (fun i => i < next_nid example_page) (nids (root example_page)).
Proof. repeat constructor. Defined.

Lemma downloadFile_clicks_and_restores_witness :
  let params := mkDownloadParams "report.pdf" [xfb; xff; x00]
                                 "application/pdf" in
  Forall (fun i => i < next_nid example_page) (nids (root example_page))
  /\ document_body example_page = (Return (Some example_body), example_page)
  /\ exists (link : Node) (b64 : string) (p' : Page),
       downloadFile params example_page = (Return tt, p')
       /\ clicks p' = clicks example_page ++ [mkClick link true]
       /\ root p' = root example_page
       /\ ~ In (nid link) (nids (root p'))
       /\ localName link = "a"
       /\ attributes link
          = [ ("href", ("data:" ++ "application/pdf" ++ ";base64," ++ b64)%string);
              ("download", "report.pdf") ]
       /\ style link = [("display", "none")]
       /\ uint8arrayToString [xfb; xff; x00] "base64" = Return b64
       /\ uint8arrayFromString b64 "base64" = Return [xfb; xff; x00].
Proof.
  intros params.
  split; [exact example_page_identities|]. split; [reflexivity|].
  apply (downloadFile_clicks_and_restores params example_page example_body
           example_page_identities).
  reflexivity.
Defined.

(** X10.  On a page without a body element [downloadFile] throws a
    [TypeError]: nothing is clicked, and the document is as it was. *)
Theorem downloadFile_without_body (params : DownloadParams) (p : Page) :
  document_body p = (Return None, p) ->
  exists p',
    downloadFile params p
    = (Throw (TypeError "Cannot read properties of null"), p')
    /\ clicks p' = clicks p
    /\ root p' = root p.
Proof.
  intros Hbody. unfold document_body in Hbody. injection Hbody as Hbody.
  destruct (base64_text_of (data params)) as (b64 & Henc & _).
  unfold downloadFile.
  unfold bind at 1. unfold createElement.
  unfold bind at 1. unfold lift. rewrite Henc.
  unfold bind at 1. unfold document_body at 1. cbn [root]. rewrite Hbody.
  unfold bind at 1. unfold appendChild, throw.
  eexists. split; [reflexivity|]. split; reflexivity.
Qed.

Lemma downloadFile_without_body_witness :
  let page := mkPage (mkNode 0 "svg" [] [] []) 1 "example.com" [] in
  document_body page = (Return None, page)
  /\ exists p',
       downloadFile (mkDownloadParams "a.txt" [x68; x69] "text/plain") page
       = (Throw (TypeError "Cannot read properties of null"), p')
       /\ clicks p' = clicks page
       /\ root p' = root page.
Proof.
  intros page. split; [reflexivity|].
  apply (downloadFile_without_body
           (mkDownloadParams "a.txt" [x68; x69] "text/plain") page).
  reflexivity.
Defined.

(** X11.  Two downloads one after the other, on a page as in X9: both
    return, the document is as before, and there were exactly two clicks,
    in call order, on two different elements that carry the file name of
    their call. *)
Theorem downloadFile_twice
    (first second : DownloadParams) (p : Page) (body : Node) :
  Forall (fun i => i < next_nid p) (nids (root p)) ->
  document_body p = (Return (Some body), p) ->
  exists (link1 link2 : Node) (p' : Page),
    (downloadFile first ;;; downloadFile second) p = (Return tt, p')
    /\ root p' = root p
    /\ clicks p' = clicks p ++ [mkClick link1 true; mkClick link2 true]
    /\ getAttribute "download" link1 = Some (filename first)
    /\ getAttribute "download" link2 = Some (filename second)
    /\ nid link1 <> nid link2.
Proof.
  intros Hlt Hbody.
  destruct (base64_text_of (data first)) as (b1 & Henc1 & _).
  destruct (base64_text_of (data second)) as (b2 & Henc2 & _).
  pose proof (downloadFile_returns first p body b1 Hlt Hbody Henc1) as H1.
  set (p1 := mkPage (root p) (S (next_nid p)) (location_host p)
                    (clicks p
                     ++ [mkClick (download_link (next_nid p) first b1) true]))
    in *.
  assert (Forall (fun i => i < next_nid p1) (nids (root p1))) as Hlt1.
  { cbn [p1 root next_nid]. eapply Forall_impl; [|exact Hlt].
    intros a Ha. simpl in Ha. lia. }
  assert (document_body p1 = (Return (Some body), p1)) as Hbody1.
  { unfold document_body in Hbody |- *. injection Hbody as Hbody.
    cbn [p1 root]. rewrite Hbody. reflexivity. }
  pose proof (downloadFile_returns second p1 body b2 Hlt1 Hbody1 Henc2) as H2.
  exists (download_link (next_nid p) first b1),
         (download_link (next_nid p1) second b2).
  eexists. split.
  { unfold bind. rewrite H1. exact H2. }
  cbn [p1 root clicks next_nid].
  split; [reflexivity|].
  split; [rewrite <- app_assoc; reflexivity|].
  split; [reflexivity|]. split; [reflexivity|].
  simpl. lia.
Qed.

Lemma downloadFile_twice_witness :
  let first := mkDownloadParams "a.txt" [x68; x69] "text/plain" in
  let second := mkDownloadParams "b.bin" [] "" in
  Forall (fun i => i < next_nid example_page) (nids (root example_page))
  /\ document_body example_page = (Return (Some example_body), example_page)
  /\ exists (link1 link2 : Node) (p' : Page),
       (downloadFile first ;;; downloadFile second) example_page
       = (Return tt, p')
       /\ root p' = root example_page
       /\ clicks p'
          = clicks example_page ++ [mkClick link1 true; mkClick link2 true]
       /\ getAttribute "download" link1 = Some "a.txt"
       /\ getAttribute "download" link2 = Some "b.bin"
       /\ nid link1 <> nid link2.
Proof.
  intros first second.
  split; [exact example_page_identities|]. split; [reflexivity|].
  apply (downloadFile_twice first second example_page example_body
           example_page_identities).
  reflexivity.
Defined.

(** ** More on the promises *)

(** X12.  For every file the promise of [fileToDataUrl] ends up resolved,
    never rejected and never pending; it is resolved with [null] exactly
    when the read failed. *)
Theorem fileToDataUrl_always_resolves (file : File) :
  exists v,
    fileToDataUrl file = Resolved v
    /\ (v = JNull <-> blob_readable (file_blob file) = false).
Proof.
  destruct (blob_readable (file_blob file)) eqn:Hr.
  - destruct (fileToDataUrl_readable file Hr) as [rest E].
    eexists. split; [exact E|]. split; discriminate.
  - exists JNull. split; [apply fileToDataUrl_unreadable; exact Hr|].
    split; reflexivity.
Qed.

(** X13.  For a file that can be read, [fileToDataUrl] resolves to a text
    that begins with [data:]. *)
Theorem fileToDataUrl_readable_gives_data_url (file : File) :
  blob_readable (file_blob file) = true ->
  exists rest, fileToDataUrl file = Resolved (JString ("data:" ++ rest)).
Proof. exact (fileToDataUrl_readable file). Qed.

Lemma fileToDataUrl_readable_gives_data_url_witness :
  blob_readable (file_blob (mkFile "logo.png" png_blob)) = true
  /\ exists rest,
       fileToDataUrl (mkFile "logo.png" png_blob)
       = Resolved (JString ("data:" ++ rest)).
Proof.
  split; [reflexivity|].
  apply (fileToDataUrl_readable_gives_data_url (mkFile "logo.png" png_blob)).
  reflexivity.
Defined.

(** X14.  The promise of [blobToBase64String] is settled for every blob: it
    is rejected, with the error of the read, when the blob cannot be read,
    and it is resolved only for a blob that can be read. *)
Theorem blobToBase64String_settles (blob : Blob) :
  blobToBase64String blob <> Pending
  /\ (blob_readable blob = false <->
      blobToBase64String blob = Rejected (DOMException "NotReadableError"))
  /\ (blob_readable blob = true <->
      exists s, blobToBase64String blob = Resolved s).
Proof.
  destruct (blob_readable blob) eqn:Hr.
  - destruct (blobToBase64String_resolves blob Hr) as (s & Hs & _).
    rewrite Hs. split; [discriminate|]. split.
    + split; discriminate.
    + split; [intros _; exists s; reflexivity | reflexivity].
  - rewrite (blobToBase64String_rejects blob Hr).
    split; [discriminate|]. split.
    + split; reflexivity.
    + split; [discriminate | intros [s Hs]; discriminate].
Qed.

(** ** The sidebar *)

(** X15.  A click handled by [handleClick] leaves the stored cookie alone
    and dispatches at most one action, which opens the cookie banner.  It
    dispatches none exactly when the stored cookie accepts support and
    updates, and the action names the Beamer cookie exactly when there is a
    stored cookie. *)
Theorem handleClick_dispatches (a : Sidebar.App) :
  Sidebar.cookie (Sidebar.handleClick a) = Sidebar.cookie a
  /\ exists new,
       Sidebar.dispatched (Sidebar.handleClick a)
       = Sidebar.dispatched a ++ new
       /\ length new <= 1
       /\ (new = [] <->
           exists state, Sidebar.cookie a = Some state
                         /\ Sidebar.acceptedSupportAndUpdates state = true)
       /\ forall payload,
            In (Sidebar.openCookieBanner payload) new ->
            Sidebar.cookieBannerOpen payload = true
            /\ (Sidebar.key payload = Some Sidebar.BEAMER
                <-> Sidebar.cookie a <> None).
Proof.
  unfold Sidebar.handleClick, Sidebar.loadFromCookie, Sidebar.dispatch.
  destruct a as [[[accepted]|] log]; cbn [Sidebar.cookie Sidebar.dispatched].
  - destruct accepted; cbn [negb Sidebar.cookie Sidebar.dispatched].
    + split; [reflexivity|]. exists [].
      split; [rewrite app_nil_r; reflexivity|]. split; [simpl; lia|].
      split; [|intros payload []].
      split; [intros _; eexists; split; reflexivity | reflexivity].
    + split; [reflexivity|]. eexists.
      split; [reflexivity|]. split; [simpl; lia|].
      split.
      * split; [discriminate|]. intros (state & E & Hacc).
        injection E as <-. discriminate.
      * intros payload [E|[]]. injection E as <-.
        split; [reflexivity|]. split; [discriminate | reflexivity].
  - split; [reflexivity|]. eexists.
    split; [reflexivity|]. split; [simpl; lia|].
    split.
    + split; [discriminate|]. intros (state & E & _). discriminate.
    + intros payload [E|[]]. injection E as <-.
      split; [reflexivity|]. split; [discriminate | intros N; contradiction].
Qed.

